(** * In-memory DevOps registry and release approvals

    A shallow embedding of the bookkeeping classes of this repository:

    - [DevOps]: the class [AzureDevOpsSimulator] of [Assignment7.py]
      (users, groups, branches, pull requests, work items, pipelines);
    - [Variables]: the class [PipelineVariableManager] of [Assignment8.py];
    - [Approvals]: the class [ReleaseApprovalManager] of [Assignment8.py].
    - [WorkItems], [VariableGroups], [Agents]: the queries of
      [WorkItemManager], the variable groups of [VariableGroupManager] and
      the class [SelfHostedAgentManager] of [Assignment8.py].

    Conventions of the embedding.

    - A Python [dict] is a [gmap], a [set] is a [gset], a [list] is a [list].
      A method that mutates an object stored in a dict is written as the
      replacement of the entry under the same key.
    - [str] is [string]; the empty string is written [EmptyString].
    - [datetime.now()] and [uuid.uuid4()] read the outside world: the value
      read is an argument of the method that reads it ([now], and the
      identifier already cut to its first eight characters).
    - [print] appends its argument to the console, a list of strings, one
      entry per call.  The four [show_*] reports of [Assignment7.py] only
      read the simulator; their text is left out. *)

From Stdlib Require Import ZArith.
From stdpp Require Import base option list gmap strings fin_maps fin_sets pretty.

Local Open Scope string_scope.

(** Python's [str(b)] for a [bool]. *)
Definition py_str_bool (b : bool) : string := if b then "True" else "False".

(** Python's [repr] of a list of [str], as an f-string prints it.  Each
    element is put between single quotes; the escapes Python adds for quotes,
    backslashes and control characters inside an element are not modelled. *)
Definition py_repr_str (s : string) : string := "'" +:+ s +:+ "'".

Definition py_repr_list (l : list string) : string :=
  "[" +:+ String.concat ", " (py_repr_str <$> l) +:+ "]".

(** ** Methods

    A method takes the object it runs on and gives back its return value,
    the object as it leaves it, and what it printed. *)

Definition Prog (St A : Type) : Type := St → A * St * list string.

#[global] Instance Prog_ret {St} : MRet (Prog St) := λ _ a s, (a, s, []).

#[global] Instance Prog_bind {St} : MBind (Prog St) := λ _ _ f m s,
  let '(a, s1, o1) := m s in
  let '(b, s2, o2) := f a s1 in
  (b, s2, (o1 ++ o2)%list).

Definition get {St} : Prog St St := λ s, (s, s, []).
Definition modify {St} (f : St → St) : Prog St unit := λ s, ((), f s, []).
Definition print {St} (line : string) : Prog St unit := λ s, ((), s, [line]).

(** [for x in l: body(x)] *)
Fixpoint for_each {St A} (l : list A) (body : A → Prog St unit)
    : Prog St unit :=
  match l with
  | [] => mret ()
  | x :: l' => body x;; for_each l' body
  end.

(** What a call leaves behind. *)
Definition result {St A} (r : A * St * list string) : A := r.1.1.
Definition state_after {St A} (r : A * St * list string) : St := r.1.2.
Definition console {St A} (r : A * St * list string) : list string := r.2.

Module DevOps.

(** ** Enums *)

Inductive UserRole := PROJECT_ADMIN | CONTRIBUTOR | READER | BUILD_ADMIN.
Inductive BranchPermission := ALLOW | DENY | INHERIT.
Inductive PullRequestStatus := ACTIVE | COMPLETED | ABANDONED.
Inductive WorkItemType := USER_STORY | TASK | BUG | FEATURE.
Inductive PipelineStatus := PENDING | RUNNING | SUCCEEDED | FAILED | CANCELED.

#[global] Instance UserRole_eq_dec : EqDecision UserRole.
Proof. solve_decision. Defined.
#[global] Instance BranchPermission_eq_dec : EqDecision BranchPermission.
Proof. solve_decision. Defined.
#[global] Instance PullRequestStatus_eq_dec : EqDecision PullRequestStatus.
Proof. solve_decision. Defined.

Definition UserRole_code (r : UserRole) : nat :=
  match r with
  | PROJECT_ADMIN => 0 | CONTRIBUTOR => 1 | READER => 2 | BUILD_ADMIN => 3
  end.

Definition UserRole_of_code (n : nat) : UserRole :=
  match n with
  | 0 => PROJECT_ADMIN | 1 => CONTRIBUTOR | 2 => READER | _ => BUILD_ADMIN
  end.

#[global] Instance UserRole_countable : Countable UserRole.
Proof.
  apply (inj_countable' UserRole_code UserRole_of_code).
  by intros [].
Defined.

(** [role.value] *)
Definition role_value (r : UserRole) : string :=
  match r with
  | PROJECT_ADMIN => "Project Administrator"
  | CONTRIBUTOR => "Contributor"
  | READER => "Reader"
  | BUILD_ADMIN => "Build Administrator"
  end.

(** ** Dataclasses *)

Record User := mkUser {
  u_username : string;
  u_email : string;
  u_display_name : string;
  u_roles : gset UserRole;
  u_is_active : bool;
  u_created_date : Z
}.

Record Group := mkGroup {
  g_name : string;
  g_description : string;
  g_members : gset string;
  g_permissions : gmap string BranchPermission;
  g_created_date : Z
}.

Record BranchPolicy := mkBranchPolicy {
  require_pull_request : bool;
  require_code_review : bool;
  minimum_reviewers : Z;
  require_build_validation : bool;
  require_up_to_date_branch : bool;
  auto_complete_enabled : bool;
  delete_source_branch : bool
}.

Record BranchSecurity := mkBranchSecurity {
  bs_branch_name : string;
  user_permissions : gmap string (gmap string BranchPermission);
  group_permissions : gmap string (gmap string BranchPermission);
  is_locked : bool;
  lock_reason : string;
  bs_path_filters : list string
}.

Record Branch := mkBranch {
  b_name : string;
  b_is_default : bool;
  b_policy : option BranchPolicy;
  b_security : option BranchSecurity;
  b_commits : list string;
  b_created_date : Z
}.

Record PullRequest := mkPullRequest {
  pr_id : string;
  pr_title : string;
  pr_source_branch : string;
  pr_target_branch : string;
  pr_author : string;
  pr_description : string;
  pr_status : PullRequestStatus;
  pr_reviewers : list string;
  pr_approvals : gset string;
  pr_work_items : list string;
  pr_created_date : Z;
  pr_completed_date : option Z
}.

Record WorkItem := mkWorkItem {
  wi_id : string;
  wi_title : string;
  wi_type : WorkItemType;
  wi_state : string;
  wi_assigned_to : string;
  wi_description : string;
  wi_priority : Z;
  wi_tags : list string;
  wi_created_date : Z
}.

Record BuildTrigger := mkBuildTrigger {
  branch_filters : list string;
  bt_path_filters : list string;
  continuous_integration : bool;
  pull_request_trigger : bool;
  scheduled_triggers : list string
}.

Record Gate := mkGate {
  gate_name : string;
  gate_condition : string;
  timeout_minutes : Z;
  is_enabled : bool;
  approval_required : bool;
  gate_approvers : list string
}.

Record Pipeline := mkPipeline {
  p_id : string;
  p_name : string;
  yaml_content : string;
  p_triggers : BuildTrigger;
  p_gates : list Gate;
  p_status : PipelineStatus;
  p_last_run : option Z
}.

(** Field defaults of the dataclasses. *)
Definition default_BranchPolicy : BranchPolicy :=
  mkBranchPolicy true true 1 true true false true.

Definition default_BuildTrigger : BuildTrigger :=
  mkBuildTrigger [] [] true true [].

(** ** The simulator object *)

Record Sim := mkSim {
  users : gmap string User;
  groups : gmap string Group;
  branches : gmap string Branch;
  pull_requests : gmap string PullRequest;
  work_items : gmap string WorkItem;
  pipelines : gmap string Pipeline;
  current_user : option string
}.

(** The object as [__init__] leaves it before [_initialize_default_data]. *)
Definition empty_sim : Sim := mkSim ∅ ∅ ∅ ∅ ∅ ∅ None.

Definition set_users (m : gmap string User) (s : Sim) : Sim :=
  mkSim m (groups s) (branches s) (pull_requests s) (work_items s)
        (pipelines s) (current_user s).
Definition set_groups (m : gmap string Group) (s : Sim) : Sim :=
  mkSim (users s) m (branches s) (pull_requests s) (work_items s)
        (pipelines s) (current_user s).
Definition set_branches (m : gmap string Branch) (s : Sim) : Sim :=
  mkSim (users s) (groups s) m (pull_requests s) (work_items s)
        (pipelines s) (current_user s).
Definition set_pull_requests (m : gmap string PullRequest) (s : Sim) : Sim :=
  mkSim (users s) (groups s) (branches s) m (work_items s)
        (pipelines s) (current_user s).
Definition set_work_items (m : gmap string WorkItem) (s : Sim) : Sim :=
  mkSim (users s) (groups s) (branches s) (pull_requests s) m
        (pipelines s) (current_user s).
Definition set_pipelines (m : gmap string Pipeline) (s : Sim) : Sim :=
  mkSim (users s) (groups s) (branches s) (pull_requests s) (work_items s)
        m (current_user s).
Definition set_current_user (u : option string) (s : Sim) : Sim :=
  mkSim (users s) (groups s) (branches s) (pull_requests s) (work_items s)
        (pipelines s) u.

(** A method of the simulator. *)
Abbreviation M := (Prog Sim).

(** [self.current_user] where the code tests [if not self.current_user]:
    [None] and the empty string both count as nobody logged in. *)
Definition logged_in (s : Sim) : option string :=
  match current_user s with
  | None | Some EmptyString => None
  | Some u => Some u
  end.

(** ** User management methods *)

(** The roles are printed in the order of [elements]; Python iterates a set
    in an order of its own. *)
Definition create_user (username email display_name : string)
    (roles : gset UserRole) (now : Z) : M User :=
  let user := mkUser username email display_name roles true now in
  modify (λ s, set_users (<[username := user]> (users s)) s);;
  print ("‚úÖ Created user: " +:+ username +:+ " with roles: "
         +:+ py_repr_list (role_value <$> elements roles));;
  mret user.

Definition login (username : string) : M bool :=
  s ← get;
  match users s !! username with
  | Some _ =>
      modify (set_current_user (Some username));;
      print ("üîê Logged in as: " +:+ username);;
      mret true
  | None =>
      print ("‚ùå User " +:+ username +:+ " not found");;
      mret false
  end.

Definition create_group (name description : string) (now : Z) : M Group :=
  let group := mkGroup name description ∅ ∅ now in
  modify (λ s, set_groups (<[name := group]> (groups s)) s);;
  print ("üë• Created group: " +:+ name);;
  mret group.

(** [group.members.add(username)] *)
Definition members_add (username : string) (g : Group) : Group :=
  mkGroup (g_name g) (g_description g) ({[username]} ∪ g_members g)
          (g_permissions g) (g_created_date g).

Definition add_user_to_group (username group_name : string) : M bool :=
  s ← get;
  match users s !! username, groups s !! group_name with
  | Some _, Some g =>
      modify (set_groups (<[group_name := members_add username g]> (groups s)));;
      print ("‚ûï Added " +:+ username +:+ " to group " +:+ group_name);;
      mret true
  | _, _ =>
      print ("‚ùå Failed to add " +:+ username +:+ " to group " +:+ group_name);;
      mret false
  end.

(** [check_permission] is called with [self.current_user], which may be
    [None]; [None] is no key of [self.users]. *)
Definition check_permission (s : Sim) (username : option string)
    (required_role : UserRole) : bool :=
  match username with
  | None => false
  | Some u =>
      match users s !! u with
      | None => false
      | Some usr => bool_decide (required_role ∈ u_roles usr)
      end
  end.

(** ** Branch management methods *)

Definition create_branch (name : string) (is_default : bool) (now : Z)
    : M Branch :=
  let branch := mkBranch name is_default None None [] now in
  modify (λ s, set_branches (<[name := branch]> (branches s)) s);;
  print ("üåø Created branch: " +:+ name);;
  mret branch.

Definition with_policy (policy : BranchPolicy) (b : Branch) : Branch :=
  mkBranch (b_name b) (b_is_default b) (Some policy) (b_security b)
           (b_commits b) (b_created_date b).

Definition with_security (sec : BranchSecurity) (b : Branch) : Branch :=
  mkBranch (b_name b) (b_is_default b) (b_policy b) (Some sec)
           (b_commits b) (b_created_date b).

Definition commits_append (c : string) (b : Branch) : Branch :=
  mkBranch (b_name b) (b_is_default b) (b_policy b) (b_security b)
           (b_commits b ++ [c])%list (b_created_date b).

Definition apply_branch_policy (branch_name : string) (policy : BranchPolicy)
    : M bool :=
  s ← get;
  match branches s !! branch_name with
  | Some b =>
      modify (set_branches (<[branch_name := with_policy policy b]> (branches s)));;
      print ("üìã Applied branch policy to " +:+ branch_name);;
      print ("   - Require PR: " +:+ py_str_bool (require_pull_request policy));;
      print ("   - Require Review: " +:+ py_str_bool (require_code_review policy));;
      print ("   - Min Reviewers: " +:+ pretty (minimum_reviewers policy));;
      print ("   - Build Validation: "
             +:+ py_str_bool (require_build_validation policy));;
      mret true
  | None =>
      print ("‚ùå Branch " +:+ branch_name +:+ " not found");;
      mret false
  end.

Definition admin_permissions : gmap string BranchPermission :=
  <["GenericRead" := ALLOW]> (<["GenericContribute" := ALLOW]>
  (<["ForcePush" := ALLOW]> (<["CreateBranch" := ALLOW]>
  (<["CreateTag" := ALLOW]> (<["ManageNote" := ALLOW]>
  (<["PolicyExempt" := ALLOW]> ∅)))))).

Definition contributor_permissions : gmap string BranchPermission :=
  <["GenericRead" := ALLOW]> (<["GenericContribute" := DENY]>
  (<["ForcePush" := DENY]> (<["CreateBranch" := ALLOW]>
  (<["CreateTag" := DENY]> (<["ManageNote" := DENY]>
  (<["PolicyExempt" := DENY]> ∅)))))).

Definition admins_group_permissions : gmap string BranchPermission :=
  <["GenericRead" := ALLOW]> (<["GenericContribute" := ALLOW]>
  (<["ForcePush" := ALLOW]> (<["PolicyExempt" := ALLOW]> ∅))).

Definition developers_group_permissions (branch_name : string)
    : gmap string BranchPermission :=
  <["GenericRead" := ALLOW]>
  (<["GenericContribute" :=
       if String.eqb branch_name "main" then DENY else ALLOW]>
  (<["ForcePush" := DENY]> (<["PolicyExempt" := DENY]> ∅))).

(** The [BranchSecurity] object that [apply_branch_security] builds. *)
Definition new_security (branch_name : string) : BranchSecurity :=
  let ups : gmap string (gmap string BranchPermission) :=
    if String.eqb branch_name "main" then
      <["developer2" := contributor_permissions]>
      (<["developer1" := contributor_permissions]>
      (<["admin" := admin_permissions]> ∅))
    else ∅ in
  let gps : gmap string (gmap string BranchPermission) :=
    <["Developers" := developers_group_permissions branch_name]>
    (<["Admins" := admins_group_permissions]> ∅) in
  mkBranchSecurity branch_name ups gps false EmptyString [].

Definition apply_branch_security (branch_name : string) : M bool :=
  s ← get;
  match branches s !! branch_name with
  | None =>
      print ("‚ùå Branch " +:+ branch_name +:+ " not found");;
      mret false
  | Some b =>
      modify (set_branches
                (<[branch_name := with_security (new_security branch_name) b]>
                   (branches s)));;
      print ("üîí Applied branch security to " +:+ branch_name);;
      mret true
  end.

Definition locked (reason : string) (sec : BranchSecurity) : BranchSecurity :=
  mkBranchSecurity (bs_branch_name sec) (user_permissions sec)
                   (group_permissions sec) true reason (bs_path_filters sec).

Definition with_path_filters (fs : list string) (sec : BranchSecurity)
    : BranchSecurity :=
  mkBranchSecurity (bs_branch_name sec) (user_permissions sec)
                   (group_permissions sec) (is_locked sec) (lock_reason sec) fs.

Definition lock_branch (branch_name reason : string) : M bool :=
  s ← get;
  if negb (check_permission s (current_user s) PROJECT_ADMIN) then
    print "‚ùå Only project administrators can lock branches";;
    mret false
  else
    match branches s !! branch_name with
    | Some (mkBranch _ _ _ (Some sec) _ _ as b) =>
        modify (set_branches
                  (<[branch_name := with_security (locked reason sec) b]>
                     (branches s)));;
        print ("üîí Locked branch " +:+ branch_name +:+ ": " +:+ reason);;
        mret true
    | _ =>
        print ("‚ùå Cannot lock branch " +:+ branch_name);;
        mret false
    end.

Definition apply_branch_filters (branch_name : string)
    (path_filters : list string) : M bool :=
  s ← get;
  match branches s !! branch_name with
  | Some (mkBranch _ _ _ (Some sec) _ _ as b) =>
      modify (set_branches
                (<[branch_name := with_security (with_path_filters path_filters sec) b]>
                   (branches s)));;
      print ("üîç Applied path filters to " +:+ branch_name +:+ ": "
             +:+ py_repr_list path_filters);;
      mret true
  | _ =>
      print ("‚ùå Cannot apply filters to branch " +:+ branch_name);;
      mret false
  end.

(** ** Pull request methods *)

Definition _can_create_pr_to_main (s : Sim) : bool :=
  match logged_in s with
  | None => false
  | Some u =>
      match branches s !! "main" with
      | Some (mkBranch _ _ _ (Some security) _ _) =>
          match user_permissions security !! u with
          | Some perms =>
              bool_decide (default DENY (perms !! "GenericRead") = ALLOW)
          | None => true
          end
      | _ => true
      end
  end.

(** [work_items] is the optional argument of the method ([None] by default);
    [pr_id] is [str(uuid.uuid4())[:8]]. *)
Definition create_pull_request (title source_branch target_branch : string)
    (description : string) (work_items : option (list string))
    (pr_id : string) (now : Z) : M (option PullRequest) :=
  s ← get;
  match logged_in s with
  | None =>
      print "‚ùå Must be logged in to create pull request";;
      mret None
  | Some author =>
      if String.eqb target_branch "main" && negb (_can_create_pr_to_main s)
      then
        print "‚ùå You don't have permission to create PR to main branch";;
        mret None
      else
        let reviewers :=
          match branches s !! target_branch with
          | Some (mkBranch _ _ (Some policy) _ _ _) =>
              if require_code_review policy then
                if String.eqb target_branch "main" then ["admin"] else []
              else []
          | _ => []
          end in
        let pr := mkPullRequest pr_id title source_branch target_branch author
                    description ACTIVE reviewers ∅ (default [] work_items)
                    now None in
        modify (set_pull_requests (<[pr_id := pr]> (pull_requests s)));;
        print ("üìã Created pull request #" +:+ pr_id +:+ ": " +:+ title);;
        print ("   From: " +:+ source_branch +:+ " ‚Üí " +:+ target_branch);;
        print ("   Author: " +:+ author);;
        print ("   Reviewers: " +:+ py_repr_list (pr_reviewers pr));;
        mret (Some pr)
  end.

(** [pr.approvals.add(user)] *)
Definition approvals_add (user : string) (pr : PullRequest) : PullRequest :=
  mkPullRequest (pr_id pr) (pr_title pr) (pr_source_branch pr)
    (pr_target_branch pr) (pr_author pr) (pr_description pr) (pr_status pr)
    (pr_reviewers pr) ({[user]} ∪ pr_approvals pr) (pr_work_items pr)
    (pr_created_date pr) (pr_completed_date pr).

(** [pr.status = COMPLETED; pr.completed_date = now] *)
Definition completed (now : Z) (pr : PullRequest) : PullRequest :=
  mkPullRequest (pr_id pr) (pr_title pr) (pr_source_branch pr)
    (pr_target_branch pr) (pr_author pr) (pr_description pr) COMPLETED
    (pr_reviewers pr) (pr_approvals pr) (pr_work_items pr)
    (pr_created_date pr) (Some now).

(** [pr.work_items.append(w)] *)
Definition work_items_append (w : string) (pr : PullRequest) : PullRequest :=
  mkPullRequest (pr_id pr) (pr_title pr) (pr_source_branch pr)
    (pr_target_branch pr) (pr_author pr) (pr_description pr) (pr_status pr)
    (pr_reviewers pr) (pr_approvals pr) (pr_work_items pr ++ [w])%list
    (pr_created_date pr) (pr_completed_date pr).

Definition approve_pull_request (pr_id : string) : M bool :=
  s ← get;
  match logged_in s with
  | None =>
      print "‚ùå Must be logged in to approve pull request";;
      mret false
  | Some user =>
      match pull_requests s !! pr_id with
      | None =>
          print ("‚ùå Pull request #" +:+ pr_id +:+ " not found");;
          mret false
      | Some pr =>
          if bool_decide (user ∈ pr_reviewers pr) then
            let pr' := approvals_add user pr in
            modify (set_pull_requests (<[pr_id := pr']> (pull_requests s)));;
            print ("‚úÖ Approved pull request #" +:+ pr_id);;
            (if bool_decide (length (pr_reviewers pr') ≤ size (pr_approvals pr'))%nat
             then print ("üéâ Pull request #" +:+ pr_id
                         +:+ " has all required approvals!")
             else mret ());;
            mret true
          else
            print ("‚ùå You are not a reviewer for pull request #" +:+ pr_id);;
            mret false
      end
  end.

Definition complete_pull_request (pr_id : string) (now : Z) : M bool :=
  s ← get;
  match logged_in s with
  | None =>
      print "‚ùå Must be logged in to complete pull request";;
      mret false
  | Some _ =>
      match pull_requests s !! pr_id with
      | None =>
          print ("‚ùå Pull request #" +:+ pr_id +:+ " not found");;
          mret false
      | Some pr =>
          if negb (check_permission s (current_user s) PROJECT_ADMIN)
             && String.eqb (pr_target_branch pr) "main"
          then
            print "‚ùå Only project administrators can complete PRs to main branch";;
            mret false
          else if bool_decide (size (pr_approvals pr) < length (pr_reviewers pr))%nat
          then
            print ("‚ùå Pull request #" +:+ pr_id +:+ " needs more approvals");;
            mret false
          else
            modify (set_pull_requests
                      (<[pr_id := completed now pr]> (pull_requests s)));;
            match branches s !! pr_target_branch pr with
            | Some b =>
                modify (set_branches
                  (<[pr_target_branch pr :=
                       commits_append ("Merged PR #" +:+ pr_id +:+ ": "
                                       +:+ pr_title pr) b]> (branches s)))
            | None => mret ()
            end;;
            print ("‚úÖ Completed pull request #" +:+ pr_id);;
            mret true
      end
  end.

(** ** Work item methods *)

(** [item_id] is [str(uuid.uuid4())[:8]]. *)
Definition create_work_item (title : string) (item_type : WorkItemType)
    (assigned_to : string) (item_id : string) (now : Z) : M WorkItem :=
  let work_item := mkWorkItem item_id title item_type "New" assigned_to
                     EmptyString 2 [] now in
  modify (λ s, set_work_items (<[item_id := work_item]> (work_items s)) s);;
  print ("üìù Created work item #" +:+ item_id +:+ ": " +:+ title);;
  mret work_item.

Definition link_work_item_to_pr (work_item_id pr_id : string) : M bool :=
  s ← get;
  match work_items s !! work_item_id, pull_requests s !! pr_id with
  | Some _, Some pr =>
      modify (set_pull_requests
                (<[pr_id := work_items_append work_item_id pr]>
                   (pull_requests s)));;
      print ("üîó Linked work item #" +:+ work_item_id +:+ " to PR #" +:+ pr_id);;
      mret true
  | _, _ =>
      print ("‚ùå Cannot link work item #" +:+ work_item_id +:+ " to PR #"
             +:+ pr_id);;
      mret false
  end.

(** ** Pipeline methods *)

Definition with_triggers (t : BuildTrigger) (p : Pipeline) : Pipeline :=
  mkPipeline (p_id p) (p_name p) (yaml_content p) t (p_gates p) (p_status p)
             (p_last_run p).

Definition gates_append (g : Gate) (p : Pipeline) : Pipeline :=
  mkPipeline (p_id p) (p_name p) (yaml_content p) (p_triggers p)
             (p_gates p ++ [g])%list (p_status p) (p_last_run p).

Definition with_status (st : PipelineStatus) (p : Pipeline) : Pipeline :=
  mkPipeline (p_id p) (p_name p) (yaml_content p) (p_triggers p) (p_gates p)
             st (p_last_run p).

Definition with_last_run (now : Z) (p : Pipeline) : Pipeline :=
  mkPipeline (p_id p) (p_name p) (yaml_content p) (p_triggers p) (p_gates p)
             (p_status p) (Some now).

(** [pipeline_id] is [str(uuid.uuid4())[:8]]. *)
Definition create_pipeline (name yaml_content : string) (pipeline_id : string)
    : M Pipeline :=
  let pipeline := mkPipeline pipeline_id name yaml_content
                    default_BuildTrigger [] PENDING None in
  modify (λ s, set_pipelines (<[pipeline_id := pipeline]> (pipelines s)) s);;
  print ("üîß Created pipeline #" +:+ pipeline_id +:+ ": " +:+ name);;
  mret pipeline.

Definition apply_build_triggers (pipeline_id : string) (triggers : BuildTrigger)
    : M bool :=
  s ← get;
  match pipelines s !! pipeline_id with
  | Some p =>
      modify (set_pipelines
                (<[pipeline_id := with_triggers triggers p]> (pipelines s)));;
      print ("‚ö° Applied build triggers to pipeline #" +:+ pipeline_id);;
      print ("   - Branch filters: " +:+ py_repr_list (branch_filters triggers));;
      print ("   - Path filters: " +:+ py_repr_list (bt_path_filters triggers));;
      print ("   - CI enabled: "
             +:+ py_str_bool (continuous_integration triggers));;
      print ("   - PR trigger: " +:+ py_str_bool (pull_request_trigger triggers));;
      mret true
  | None =>
      print ("‚ùå Pipeline #" +:+ pipeline_id +:+ " not found");;
      mret false
  end.

Definition add_pipeline_gate (pipeline_id : string) (gate : Gate) : M bool :=
  s ← get;
  match pipelines s !! pipeline_id with
  | Some p =>
      modify (set_pipelines
                (<[pipeline_id := gates_append gate p]> (pipelines s)));;
      print ("üö™ Added gate '" +:+ gate_name gate +:+ "' to pipeline #"
             +:+ pipeline_id);;
      print ("   - Condition: " +:+ gate_condition gate);;
      print ("   - Approval required: " +:+ py_str_bool (approval_required gate));;
      print ("   - Approvers: " +:+ py_repr_list (gate_approvers gate));;
      mret true
  | None =>
      print ("‚ùå Pipeline #" +:+ pipeline_id +:+ " not found");;
      mret false
  end.

Definition run_pipeline (pipeline_id : string) (now : Z) : M bool :=
  s ← get;
  match pipelines s !! pipeline_id with
  | None =>
      print ("‚ùå Pipeline #" +:+ pipeline_id +:+ " not found");;
      mret false
  | Some p =>
      let running := with_last_run now (with_status RUNNING p) in
      modify (set_pipelines (<[pipeline_id := running]> (pipelines s)));;
      print ("üöÄ Running pipeline #" +:+ pipeline_id +:+ ": " +:+ p_name p);;
      for_each (p_gates p) (λ gate,
        if is_enabled gate then
          print ("   üö™ Gate '" +:+ gate_name gate +:+ "': "
                 +:+ gate_condition gate);;
          if approval_required gate
             && negb (bool_decide (gate_approvers gate = []))
          then print ("   ‚è≥ Waiting for approval from: "
                      +:+ py_repr_list (gate_approvers gate))
          else mret ()
        else mret ());;
      modify (λ s1, set_pipelines
                (<[pipeline_id := with_status SUCCEEDED running]> (pipelines s1))
                s1);;
      print ("‚úÖ Pipeline #" +:+ pipeline_id +:+ " completed successfully");;
      mret true
  end.

(** ** Reporting methods

    [show_user_summary], [show_branch_summary], [show_pull_request_summary],
    [show_pipeline_summary] and [show_work_item_summary] read the
    dictionaries and print a report; none of them assigns to the simulator.
    The report lists the entries in the insertion order of the dicts and
    formats sets and datetimes, none of which the model keeps: the text is
    left out and only the effect on the simulator (none) is modelled. *)

Inductive Report :=
  | UserSummary | BranchSummary | PullRequestSummary | PipelineSummary
  | WorkItemSummary.

Definition show_summary (r : Report) : M unit := mret ().

(** ** Construction

    [clock k] is the value of the [k]-th reading of [datetime.now()] and
    [uuid8 k] the [k]-th identifier drawn while the object is built. *)

Definition _initialize_default_data (clock : nat → Z) (uuid8 : nat → string)
    : M unit :=
  create_user "admin" "admin@company.com" "Project Administrator"
              {[PROJECT_ADMIN; BUILD_ADMIN]} (clock 0);;
  create_user "developer1" "dev1@company.com" "Developer One"
              {[CONTRIBUTOR]} (clock 1);;
  create_user "developer2" "dev2@company.com" "Developer Two"
              {[CONTRIBUTOR]} (clock 2);;
  create_user "reader" "reader@company.com" "Read Only User"
              {[READER]} (clock 3);;
  create_group "Developers" "Development team members" (clock 4);;
  add_user_to_group "developer1" "Developers";;
  add_user_to_group "developer2" "Developers";;
  create_group "Admins" "Project administrators" (clock 5);;
  add_user_to_group "admin" "Admins";;
  create_branch "main" true (clock 6);;
  create_branch "develop" false (clock 7);;
  create_branch "feature/user-auth" false (clock 8);;
  apply_branch_policy "main"
    (mkBranchPolicy true true 2 true true false true);;
  apply_branch_security "main";;
  create_work_item "Implement user authentication" USER_STORY "developer1"
                   (uuid8 0) (clock 9);;
  create_work_item "Create login page" TASK "developer1" (uuid8 1) (clock 10);;
  create_work_item "Fix login bug" BUG "developer2" (uuid8 2) (clock 11);;
  mret ().

(** [AzureDevOpsSimulator()] *)
Definition new_simulator (clock : nat → Z) (uuid8 : nat → string) : Sim :=
  state_after (_initialize_default_data clock uuid8 empty_sim).

(** ** The public operations as a transition system *)

Inductive Op :=
  | CreateUser (username email display_name : string) (roles : gset UserRole)
               (now : Z)
  | Login (username : string)
  | CreateGroup (name description : string) (now : Z)
  | AddUserToGroup (username group_name : string)
  | CheckPermission (username : option string) (required_role : UserRole)
  | CreateBranch (name : string) (is_default : bool) (now : Z)
  | ApplyBranchPolicy (branch_name : string) (policy : BranchPolicy)
  | ApplyBranchSecurity (branch_name : string)
  | LockBranch (branch_name reason : string)
  | ApplyBranchFilters (branch_name : string) (path_filters : list string)
  | CreatePullRequest (title source_branch target_branch description : string)
                      (work_items : option (list string)) (pr_id : string)
                      (now : Z)
  | ApprovePullRequest (pr_id : string)
  | CompletePullRequest (pr_id : string) (now : Z)
  | CreateWorkItem (title : string) (item_type : WorkItemType)
                   (assigned_to item_id : string) (now : Z)
  | LinkWorkItemToPr (work_item_id pr_id : string)
  | CreatePipeline (name yaml_content pipeline_id : string)
  | ApplyBuildTriggers (pipeline_id : string) (triggers : BuildTrigger)
  | AddPipelineGate (pipeline_id : string) (gate : Gate)
  | RunPipeline (pipeline_id : string) (now : Z)
  | ShowSummary (r : Report).

(** The simulator after one call. *)
Definition step (s : Sim) (o : Op) : Sim :=
  match o with
  | CreateUser u e d r now => state_after (create_user u e d r now s)
  | Login u => state_after (login u s)
  | CreateGroup n d now => state_after (create_group n d now s)
  | AddUserToGroup u g => state_after (add_user_to_group u g s)
  | CheckPermission _ _ => s
  | CreateBranch n d now => state_after (create_branch n d now s)
  | ApplyBranchPolicy b p => state_after (apply_branch_policy b p s)
  | ApplyBranchSecurity b => state_after (apply_branch_security b s)
  | LockBranch b r => state_after (lock_branch b r s)
  | ApplyBranchFilters b fs => state_after (apply_branch_filters b fs s)
  | CreatePullRequest t src tgt d wis id now =>
      state_after (create_pull_request t src tgt d wis id now s)
  | ApprovePullRequest id => state_after (approve_pull_request id s)
  | CompletePullRequest id now => state_after (complete_pull_request id now s)
  | CreateWorkItem t ty a id now => state_after (create_work_item t ty a id now s)
  | LinkWorkItemToPr w id => state_after (link_work_item_to_pr w id s)
  | CreatePipeline n y id => state_after (create_pipeline n y id s)
  | ApplyBuildTriggers id t => state_after (apply_build_triggers id t s)
  | AddPipelineGate id g => state_after (add_pipeline_gate id g s)
  | RunPipeline id now => state_after (run_pipeline id now s)
  | ShowSummary r => state_after (show_summary r s)
  end.

(** The simulator after a sequence of calls. *)
Definition steps (s : Sim) (os : list Op) : Sim := foldl step s os.

(** The states the public operations can produce, starting from the object
    whose dictionaries are still empty; the calls of
    [_initialize_default_data] are public operations themselves. *)
Inductive reachable : Sim → Prop :=
  | reachable_empty : reachable empty_sim
  | reachable_step s o : reachable s → reachable (step s o).

(** The calls that [_initialize_default_data] makes. *)
Definition initial_ops (clock : nat → Z) (uuid8 : nat → string) : list Op :=
  [ CreateUser "admin" "admin@company.com" "Project Administrator"
               {[PROJECT_ADMIN; BUILD_ADMIN]} (clock 0);
    CreateUser "developer1" "dev1@company.com" "Developer One"
               {[CONTRIBUTOR]} (clock 1);
    CreateUser "developer2" "dev2@company.com" "Developer Two"
               {[CONTRIBUTOR]} (clock 2);
    CreateUser "reader" "reader@company.com" "Read Only User"
               {[READER]} (clock 3);
    CreateGroup "Developers" "Development team members" (clock 4);
    AddUserToGroup "developer1" "Developers";
    AddUserToGroup "developer2" "Developers";
    CreateGroup "Admins" "Project administrators" (clock 5);
    AddUserToGroup "admin" "Admins";
    CreateBranch "main" true (clock 6);
    CreateBranch "develop" false (clock 7);
    CreateBranch "feature/user-auth" false (clock 8);
    ApplyBranchPolicy "main" (mkBranchPolicy true true 2 true true false true);
    ApplyBranchSecurity "main";
    CreateWorkItem "Implement user authentication" USER_STORY "developer1"
                   (uuid8 0) (clock 9);
    CreateWorkItem "Create login page" TASK "developer1" (uuid8 1) (clock 10);
    CreateWorkItem "Fix login bug" BUG "developer2" (uuid8 2) (clock 11) ].

(** ** Invariant and sample runs *)

(** Every approval of a stored pull request comes from one of its
    reviewers. *)
Definition approvals_from_reviewers (s : Sim) : Prop :=
  ∀ k pr, pull_requests s !! k = Some pr →
          ∀ u, u ∈ pr_approvals pr → u ∈ pr_reviewers pr.

(** When [complete_pull_request] may merge the stored pull request [pr]:
    somebody is logged in, that user is a project administrator or the
    target is not ["main"], and there are at least as many approvals as
    reviewers. *)
Definition may_complete (s : Sim) (pr : PullRequest) : Prop :=
  is_Some (logged_in s)
  ∧ (check_permission s (current_user s) PROJECT_ADMIN = true
     ∨ pr_target_branch pr ≠ "main")
  ∧ (length (pr_reviewers pr) ≤ size (pr_approvals pr))%nat.

(** [pr] with another author. *)
Definition with_author (author : string) (pr : PullRequest) : PullRequest :=
  mkPullRequest (pr_id pr) (pr_title pr) (pr_source_branch pr)
    (pr_target_branch pr) author (pr_description pr) (pr_status pr)
    (pr_reviewers pr) (pr_approvals pr) (pr_work_items pr)
    (pr_created_date pr) (pr_completed_date pr).

(** Every key of the six dictionaries of [s] is a key in [s']. *)
Definition keys_kept (s s' : Sim) : Prop :=
  dom (users s) ⊆ dom (users s')
  ∧ dom (groups s) ⊆ dom (groups s')
  ∧ dom (branches s) ⊆ dom (branches s')
  ∧ dom (pull_requests s) ⊆ dom (pull_requests s')
  ∧ dom (work_items s) ⊆ dom (work_items s')
  ∧ dom (pipelines s) ⊆ dom (pipelines s').

(** A simulator built with the clock showing [0, 1, 2, ...] and the
    identifiers ["wi-00000"], ["wi-00001"], ... *)
Definition demo_clock (k : nat) : Z := Z.of_nat k.
Definition demo_uuid8 (k : nat) : string := "wi-0000" +:+ pretty k.
Definition demo_sim : Sim := new_simulator demo_clock demo_uuid8.

(** [admin] opens a pull request to [main] and approves it. *)
Definition demo_pr_to_main : Sim :=
  steps demo_sim
    [ Login "admin";
      CreatePullRequest "Add login" "feature/user-auth" "main" EmptyString
                        None "a1b2c3d4" 20;
      ApprovePullRequest "a1b2c3d4" ].

(** The pull request of the sample runs as [create_pull_request] stores it,
    by [author] to [target]. *)
Definition demo_pr (author target : string) (reviewers : list string)
    : PullRequest :=
  mkPullRequest "a1b2c3d4" "Add login" "feature/user-auth" target author
                EmptyString ACTIVE reviewers ∅ [] 20 None.

(** [developer1] opens a pull request to [develop]. *)
Definition demo_pr_to_develop : Sim :=
  steps demo_sim
    [ Login "developer1";
      CreatePullRequest "Add login" "feature/user-auth" "develop" EmptyString
                        None "a1b2c3d4" 20 ].

(** [developer1] opens a pull request to [main]; nobody has approved it
    when [admin] logs in. *)
Definition demo_pr_unapproved : Sim :=
  steps demo_sim
    [ Login "developer1";
      CreatePullRequest "Add login" "feature/user-auth" "main" EmptyString
                        None "a1b2c3d4" 20;
      Login "admin" ].

(** [reader], who has no entry in the permissions of [main], logs in. *)
Definition demo_reader : Sim := steps demo_sim [ Login "reader" ].

(** ** Further invariants *)

(** Every entity is stored under its own identifier, and the security of a
    branch carries the name of the branch. *)
Definition stored_under_own_id (s : Sim) : Prop :=
  (∀ k u, users s !! k = Some u → u_username u = k)
  ∧ (∀ k g, groups s !! k = Some g → g_name g = k)
  ∧ (∀ k b, branches s !! k = Some b →
            b_name b = k
            ∧ ∀ sec, b_security b = Some sec → bs_branch_name sec = k)
  ∧ (∀ k pr, pull_requests s !! k = Some pr → pr_id pr = k)
  ∧ (∀ k w, work_items s !! k = Some w → wi_id w = k)
  ∧ (∀ k p, pipelines s !! k = Some p → p_id p = k).

(** What the methods make of a pull request: it is active or completed, and
    completed exactly when it has a completion date; its reviewers are
    nobody, or ["admin"] alone when it targets ["main"]; somebody wrote
    it. *)
Definition pull_request_shape (pr : PullRequest) : Prop :=
  (pr_status pr = ACTIVE ∧ pr_completed_date pr = None
   ∨ pr_status pr = COMPLETED ∧ is_Some (pr_completed_date pr))
  ∧ (pr_reviewers pr = []
     ∨ pr_reviewers pr = ["admin"] ∧ pr_target_branch pr = "main")
  ∧ pr_author pr ≠ EmptyString.

Definition pull_requests_shaped (s : Sim) : Prop :=
  ∀ k pr, pull_requests s !! k = Some pr → pull_request_shape pr.

(** The call came back with [False], or with [None] from
    [create_pull_request]. *)
Definition refused (s : Sim) (o : Op) : bool :=
  match o with
  | Login u => negb (result (login u s))
  | AddUserToGroup u g => negb (result (add_user_to_group u g s))
  | ApplyBranchPolicy b p => negb (result (apply_branch_policy b p s))
  | ApplyBranchSecurity b => negb (result (apply_branch_security b s))
  | LockBranch b r => negb (result (lock_branch b r s))
  | ApplyBranchFilters b fs => negb (result (apply_branch_filters b fs s))
  | CreatePullRequest t src tgt d wis id now =>
      bool_decide (result (create_pull_request t src tgt d wis id now s) = None)
  | ApprovePullRequest id => negb (result (approve_pull_request id s))
  | CompletePullRequest id now => negb (result (complete_pull_request id now s))
  | LinkWorkItemToPr w id => negb (result (link_work_item_to_pr w id s))
  | ApplyBuildTriggers id t => negb (result (apply_build_triggers id t s))
  | AddPipelineGate id g => negb (result (add_pipeline_gate id g s))
  | RunPipeline id now => negb (result (run_pipeline id now s))
  | _ => false
  end.

(** The logged-in user, the members of the groups, and the authors and
    approvers of the pull requests are stored users. *)
Definition users_known (s : Sim) : Prop :=
  (∀ u, current_user s = Some u → u ∈ dom (users s))
  ∧ (∀ k g u, groups s !! k = Some g → u ∈ g_members g → u ∈ dom (users s))
  ∧ (∀ k pr, pull_requests s !! k = Some pr →
             pr_author pr ∈ dom (users s)
             ∧ ∀ u, u ∈ pr_approvals pr → u ∈ dom (users s)).

(** The commit that [complete_pull_request] appends to the target branch. *)
Definition merge_commit (k : string) (pr : PullRequest) : string :=
  "Merged PR #" +:+ k +:+ ": " +:+ pr_title pr.

End DevOps.

(** * [PipelineVariableManager] ([Assignment8.py]) *)

Module Variables.

(** The dict stored for one variable. *)
Record Variable_ := mkVariable {
  value : string;
  is_secret : bool;
  actual_value : string
}.

(** [self.variables]: scope, then name. *)
Abbreviation Store := (gmap string (gmap string Variable_)).

(** [PipelineVariableManager()] *)
Definition new_manager : Store :=
  <["build" := ∅]> (<["release" := ∅]> (<["environment" := ∅]> ∅)).

(** ['*' * n] *)
Fixpoint stars (n : nat) : string :=
  match n with
  | 0 => EmptyString
  | S n' => "*" +:+ stars n'
  end.

Definition add_variable (scope name value : string) (is_secret : bool)
    : Prog Store unit :=
  modify (λ vs, match vs !! scope with
                | None => <[scope := ∅]> vs
                | Some _ => vs
                end);;
  modify (λ vs,
    let entry := mkVariable (if is_secret then stars (String.length value)
                             else value)
                            is_secret value in
    <[scope := <[name := entry]> (default ∅ (vs !! scope))]> vs);;
  print ("✅ Variable '" +:+ name +:+ "' added to '" +:+ scope +:+ "' scope").

(** [None] is Python's [None]. *)
Definition get_variable (vs : Store) (scope name : string) : option string :=
  match vs !! scope with
  | Some vars =>
      match vars !! name with
      | Some entry => Some (actual_value entry)
      | None => None
      end
  | None => None
  end.

(** ** Export

    [generate_yaml_config] collects a name and the ['actual_value'] of every
    stored variable and hands the list to [yaml.dump].  The two loops follow
    the order of [map_to_list] here; Python follows the insertion order of
    the dicts. *)

Definition yaml_variables (vs : Store) : list (string * string) :=
  '(scope, vars_dict) ← map_to_list vs;
  '(name, details) ← map_to_list vars_dict;
  [(name, actual_value details)].

(** [yaml_dump] is [yaml.dump(yaml_config, default_flow_style=False)], from
    PyYAML, on the dict [{'variables': ...}]. *)
Definition generate_yaml_config (yaml_dump : list (string * string) → string)
    (vs : Store) : string :=
  yaml_dump (yaml_variables vs).

(** ** Sample run *)

(** The manager after [pvm.add_variable('release', 'ApiKey',
    'sk-1234567890abcdef', is_secret=True)]. *)
Definition demo_store : Store :=
  state_after (add_variable "release" "ApiKey" "sk-1234567890abcdef" true
                            new_manager).

End Variables.

(** * [ReleaseApprovalManager] ([Assignment8.py])

    The list of approvers that a request holds is the very list object of
    its environment: [request_approval] stores a reference, and a later
    [add_approver] on the environment shows in the request.  The list
    objects therefore live in a store of their own, [lists], and
    environments and requests hold addresses into it. *)

Module Approvals.

Record Environment := mkEnvironment {
  description : string;
  pre_deployment_approvers : nat;
  post_deployment_approvers : nat;
  created_date : Z
}.

Record Response := mkResponse {
  decision : string;
  comment : string;
  response_date : Z
}.

Record Request := mkRequest {
  id : string;
  deployment_id : string;
  environment : string;
  type : string;
  approvers : nat;
  status : string;
  requested_date : Z;
  responses : gmap string Response
}.

(** [self.approvals] is set to an empty dict by [__init__] and never used
    again; it is left out. *)
Record Manager := mkManager {
  lists : list (list string);
  environments : gmap string Environment;
  approval_requests : list Request
}.

(** [ReleaseApprovalManager()] *)
Definition new_manager : Manager := mkManager [] ∅ [].

(** The list object at an address. *)
Definition deref (m : Manager) (a : nat) : list string :=
  default [] (lists m !! a).

(** The approvers a request lists now. *)
Definition approvers_of (m : Manager) (r : Request) : list string :=
  deref m (approvers r).

Inductive outcome (A : Type) :=
  | Returned (a : A)
  | KeyError (key : string).
Arguments Returned {A} a.
Arguments KeyError {A} key.

Definition create_environment (name description : string) (now : Z)
    : Prog Manager unit :=
  modify (λ m,
    let a := length (lists m) in
    mkManager (lists m ++ [[]; []])%list
              (<[name := mkEnvironment description a (S a) now]>
                 (environments m))
              (approval_requests m));;
  print ("✅ Environment '" +:+ name +:+ "' created").

(** [the_list.append(x)] on the list object at address [a]. *)
Definition append_at (a : nat) (x : string) (m : Manager) : Manager :=
  mkManager (alter (λ l, l ++ [x])%list a (lists m)) (environments m)
            (approval_requests m).

Definition add_approver (environment approver_email approval_type : string)
    : Prog Manager unit :=
  m ← get;
  match environments m !! environment with
  | Some e =>
      (if String.eqb approval_type "pre" then
         modify (append_at (pre_deployment_approvers e) approver_email)
       else if String.eqb approval_type "post" then
         modify (append_at (post_deployment_approvers e) approver_email)
       else mret ());;
      print ("✅ Added " +:+ approval_type +:+ "-deployment approver "
             +:+ approver_email +:+ " to " +:+ environment)
  | None => mret ()
  end.

Section WithDigest.

(** [hashlib.md5(data).hexdigest()], from Python's library. *)
Variable md5_hexdigest : string → string.

Definition request_id_of (deployment_id approval_type : string) : string :=
  "approval-"
  +:+ String.substring 0 8 (md5_hexdigest (deployment_id +:+ "-" +:+ approval_type)).

(** [self.approval_requests.append(approval_request)] with the approvers at
    address [a], then the message and the return value. *)
Definition send_request (request_id environment deployment_id : string)
    (approval_type : string) (a : nat) (now : Z)
    : Prog Manager (outcome string) :=
  modify (λ m,
    mkManager (lists m) (environments m)
      (approval_requests m ++
         [mkRequest request_id deployment_id environment approval_type a
                    "Pending" now ∅])%list);;
  m ← get;
  print ("📨 Approval request " +:+ request_id +:+ " sent to "
         +:+ pretty (length (deref m a)) +:+ " approvers for " +:+ environment);;
  mret (Returned request_id).

(** Indexing [self.environments] with an unknown name raises [KeyError]:
    nothing has been stored or printed by then.  With an [approval_type]
    other than ["pre"] and ["post"] the request keeps the fresh empty list
    [approvers = []], a new list object. *)
Definition request_approval (environment deployment_id approval_type : string)
    (now : Z) : Prog Manager (outcome string) :=
  let request_id := request_id_of deployment_id approval_type in
  m ← get;
  if String.eqb approval_type "pre" then
    match environments m !! environment with
    | Some e => send_request request_id environment deployment_id
                             approval_type (pre_deployment_approvers e) now
    | None => mret (KeyError environment)
    end
  else if String.eqb approval_type "post" then
    match environments m !! environment with
    | Some e => send_request request_id environment deployment_id
                             approval_type (post_deployment_approvers e) now
    | None => mret (KeyError environment)
    end
  else
    let a := length (lists m) in
    modify (λ m, mkManager (lists m ++ [[]])%list (environments m)
                           (approval_requests m));;
    send_request request_id environment deployment_id approval_type a now.

End WithDigest.

(** [all(resp['decision'] == 'Approved' for resp in responses.values())] *)
Definition all_approved (rs : gmap string Response) : bool :=
  forallb (λ kr, String.eqb (decision kr.2) "Approved") (map_to_list rs).

(** The body of the loop of [process_approval] once the request and the
    approver have matched: record the response, and set the status when
    there are as many responses as approvers. *)
Definition respond (m : Manager) (approver decision comment : string)
    (now : Z) (request : Request) : Request :=
  let responses' :=
    <[approver := mkResponse decision comment now]> (responses request) in
  let status' :=
    if Nat.eqb (size responses') (length (approvers_of m request)) then
      if all_approved responses' then "Approved" else "Rejected"
    else status request in
  mkRequest (id request) (deployment_id request) (environment request)
            (type request) (approvers request) status'
            (requested_date request) responses'.

(** The loop of [process_approval] over [self.approval_requests]: the first
    request with this id that lists the approver takes the response.
    [None]: the loop ran to its end. *)
Fixpoint process_loop (m : Manager) (request_id approver decision : string)
    (comment : string) (now : Z) (rs : list Request) : option (list Request) :=
  match rs with
  | [] => None
  | request :: rest =>
      if String.eqb (id request) request_id
         && bool_decide (approver ∈ approvers_of m request)
      then Some (respond m approver decision comment now request :: rest)
      else (request ::.) <$>
             process_loop m request_id approver decision comment now rest
  end.

Definition process_approval (request_id approver decision comment : string)
    (now : Z) : Prog Manager bool :=
  m ← get;
  match process_loop m request_id approver decision comment now
                     (approval_requests m) with
  | Some rs =>
      modify (λ m, mkManager (lists m) (environments m) rs);;
      print ("✅ Approval processed: " +:+ approver +:+ " " +:+ decision
             +:+ " request " +:+ request_id);;
      mret true
  | None =>
      print ("❌ Approval request " +:+ request_id
             +:+ " not found or approver not authorized");;
      mret false
  end.

(** [status] is the optional argument; [None] and the empty string list
    every request. *)
Definition list_approval_requests (status_filter : option string)
    : Prog Manager unit :=
  m ← get;
  let shown := match status_filter with
               | None | Some EmptyString => None
               | Some st => Some st
               end in
  print (String (Ascii.ascii_of_nat 10) EmptyString +:+ "📋 Approval Requests "
         +:+ match shown with
             | Some st => "(" +:+ st +:+ ")"
             | None => EmptyString
             end +:+ ":");;
  let filtered_requests :=
    match shown with
    | Some st => filter (λ req, status req = st) (approval_requests m)
    | None => approval_requests m
    end in
  for_each filtered_requests (λ request,
    let n := pretty (length (approvers_of m request)) in
    print ("  " +:+ id request +:+ " - " +:+ environment request +:+ " ("
           +:+ type request +:+ "-deployment)");;
    print ("    Status: " +:+ status request);;
    print ("    Approvers: " +:+ n);;
    print ("    Responses: " +:+ pretty (size (responses request)) +:+ "/"
           +:+ n)).

(** ** The calls as a transition system *)

Inductive Call :=
  | CreateEnvironment (name description : string) (now : Z)
  | AddApprover (environment approver_email approval_type : string)
  | RequestApproval (environment deployment_id approval_type : string) (now : Z)
  | ProcessApproval (request_id approver decision comment : string) (now : Z)
  | ListApprovalRequests (status_filter : option string).

Definition step (md5_hexdigest : string → string) (m : Manager) (c : Call)
    : Manager :=
  match c with
  | CreateEnvironment n d now => state_after (create_environment n d now m)
  | AddApprover e a t => state_after (add_approver e a t m)
  | RequestApproval e d t now =>
      state_after (request_approval md5_hexdigest e d t now m)
  | ProcessApproval r a d c now => state_after (process_approval r a d c now m)
  | ListApprovalRequests st => state_after (list_approval_requests st m)
  end.

Definition steps (md5_hexdigest : string → string) (m : Manager)
    (cs : list Call) : Manager :=
  foldl (step md5_hexdigest) m cs.

(** A status other than ["Pending"]. *)
Definition resolved (st : string) : Prop := st = "Approved" ∨ st = "Rejected".

(** The status of the [i]-th request. *)
Definition status_at (m : Manager) (i : nat) : option string :=
  status <$> approval_requests m !! i.

(** Every approver the request lists has an entry in its responses. *)
Definition all_responded (m : Manager) (r : Request) : Prop :=
  ∀ a, a ∈ approvers_of m r → a ∈ dom (responses r).

(** ** Sample runs

    The digest of the sample runs gives every input the same digest; one
    request is made in each run. *)
Definition demo_digest (data : string) : string :=
  "9e107d9d372bb6826bd81d3542a419d6".

Definition demo_request_id : string := "approval-9e107d9d".

(** Staging has one approver, who approves the request. *)
Definition demo_approved : Manager :=
  steps demo_digest new_manager
    [ CreateEnvironment "Staging" "Staging environment for testing" 0;
      AddApprover "Staging" "lead@company.com" "pre";
      RequestApproval "Staging" "deploy-12345" "pre" 1;
      ProcessApproval demo_request_id "lead@company.com" "Approved" "LGTM" 2 ].

(** The same approver then answers again, this time to reject. *)
Definition demo_changed_mind : Manager :=
  step demo_digest demo_approved
    (ProcessApproval demo_request_id "lead@company.com" "Rejected"
                     "Found a problem" 3).

(** Staging lists the same approver twice; the approver approves. *)
Definition demo_listed_twice : Manager :=
  steps demo_digest new_manager
    [ CreateEnvironment "Staging" "Staging environment for testing" 0;
      AddApprover "Staging" "lead@company.com" "pre";
      AddApprover "Staging" "lead@company.com" "pre";
      RequestApproval "Staging" "deploy-12345" "pre" 1;
      ProcessApproval demo_request_id "lead@company.com" "Approved" "LGTM" 2 ].

(** ** Reachable states and their invariants *)

(** The managers that the calls can produce from a new one. *)
Inductive reachable (md5_hexdigest : string → string) : Manager → Prop :=
  | reachable_new : reachable md5_hexdigest new_manager
  | reachable_step m c :
      reachable md5_hexdigest m → reachable md5_hexdigest (step md5_hexdigest m c).

(** The test of the loop of [process_approval]: the request has this id and
    lists the approver. *)
Definition matches (m : Manager) (request_id approver : string) (r : Request)
    : Prop :=
  id r = request_id ∧ approver ∈ approvers_of m r.

(** The [i]-th request is the first one that passes the test. *)
Definition first_match (m : Manager) (request_id approver : string) (i : nat)
    (r : Request) : Prop :=
  approval_requests m !! i = Some r
  ∧ matches m request_id approver r
  ∧ ∀ j r', (j < i)%nat → approval_requests m !! j = Some r' →
            ¬ matches m request_id approver r'.

(** The lists of every environment are in the store. *)
Definition addresses_valid (m : Manager) : Prop :=
  ∀ n e, environments m !! n = Some e →
         (pre_deployment_approvers e < length (lists m))%nat
         ∧ (post_deployment_approvers e < length (lists m))%nat.

(** The list at address [a] is empty and belongs to no environment. *)
Definition unlisted (m : Manager) (a : nat) : Prop :=
  lists m !! a = Some []
  ∧ ∀ n e, environments m !! n = Some e →
           pre_deployment_approvers e ≠ a ∧ post_deployment_approvers e ≠ a.

(** Every response of every request comes from an approver it lists. *)
Definition responses_from_approvers (m : Manager) : Prop :=
  ∀ r, r ∈ approval_requests m →
       ∀ a, a ∈ dom (responses r) → a ∈ approvers_of m r.

(** One of the three statuses the code assigns. *)
Definition status_known (st : string) : Prop := st = "Pending" ∨ resolved st.

(** The verdict of [respond]. *)
Definition verdict (rs : gmap string Response) : string :=
  if all_approved rs then "Approved" else "Rejected".

(** ** Further sample runs *)

(** The same approval is requested twice for a deployment; the approver
    answers twice. *)
Definition demo_requested_twice : list Call :=
  [ CreateEnvironment "Staging" "Staging environment for testing" 0;
    AddApprover "Staging" "lead@company.com" "pre";
    RequestApproval "Staging" "deploy-12345" "pre" 1;
    RequestApproval "Staging" "deploy-12345" "pre" 2 ].

(** Production has two approvers; the first has approved. *)
Definition demo_one_of_two : Manager :=
  steps demo_digest new_manager
    [ CreateEnvironment "Production" "Production environment" 0;
      AddApprover "Production" "manager@company.com" "pre";
      AddApprover "Production" "lead@company.com" "pre";
      RequestApproval "Production" "deploy-12345" "pre" 1;
      ProcessApproval demo_request_id "manager@company.com" "Approved" "LGTM" 2 ].

End Approvals.

(** * [WorkItemManager] ([Assignment8.py])

    The queries of the work item dashboard.  A work item is a dict from
    field names to values; the fields of the sample items hold strings,
    integers, dates and [None].  [create_sample_work_items] (which draws
    from [random]) and [display_dashboard] (pandas, matplotlib) are left
    out. *)

Module WorkItems.

Inductive value :=
  | VNone
  | VStr (s : string)
  | VInt (n : Z)
  | VDate (t : Z).

#[global] Instance value_eq_dec : EqDecision value.
Proof. solve_decision. Defined.

Abbreviation Item := (gmap string value).

(** What a query asks of a field: a value, or a list of values
    ([isinstance(value, list)]). *)
Inductive criterion :=
  | Is (v : value)
  | OneOf (vs : list value).

(** A criteria dict is kept as its items, in insertion order. *)
Abbreviation Criteria := (list (string * criterion)).

Record Manager := mkManager {
  work_items : list Item;
  queries : gmap string Criteria
}.

(** [WorkItemManager()] *)
Definition new_manager : Manager := mkManager [] ∅.

Definition create_query (name : string) (criteria : Criteria)
    : Prog Manager unit :=
  modify (λ m, mkManager (work_items m) (<[name := criteria]> (queries m)));;
  print ("✅ Query '" +:+ name +:+ "' created successfully").

(** [item.get(field)] *)
Definition item_get (item : Item) (field : string) : value :=
  default VNone (item !! field).

(** The test of one list comprehension of [execute_query]:
    [item.get(field) in value] or [item.get(field) == value]. *)
Definition keeps (field : string) (c : criterion) (item : Item) : bool :=
  match c with
  | OneOf vs => bool_decide (item_get item field ∈ vs)
  | Is v => bool_decide (item_get item field = v)
  end.

Definition execute_query (query_name : string) : Prog Manager (list Item) :=
  m ← get;
  match queries m !! query_name with
  | None =>
      print ("❌ Query '" +:+ query_name +:+ "' not found");;
      mret []
  | Some criteria =>
      mret (foldl (λ filtered_items fc,
                     List.filter (keeps fc.1 fc.2) filtered_items)
                  (work_items m) criteria)
  end.

(** An item passes every criterion. *)
Definition passes (criteria : Criteria) (item : Item) : bool :=
  forallb (λ fc, keeps fc.1 fc.2 item) criteria.

(** ** Sample run *)

Definition demo_bug : Item :=
  <["id" := VStr "WI-1000"]> (<["type" := VStr "Bug"]>
  (<["state" := VStr "Active"]> (<["priority" := VStr "High"]>
  (<["story_points" := VNone]> ∅)))).

Definition demo_story : Item :=
  <["id" := VStr "WI-1001"]> (<["type" := VStr "User Story"]>
  (<["state" := VStr "Active"]> (<["priority" := VStr "Low"]>
  (<["story_points" := VInt 5]> ∅)))).

Definition demo_manager : Manager :=
  state_after
    (create_query "Active Bugs"
       [("type", Is (VStr "Bug")); ("state", Is (VStr "Active"))]
       (mkManager [demo_bug; demo_story] ∅)).

End WorkItems.

(** * [VariableGroupManager] ([Assignment8.py])

    The variable groups.  The task groups ([create_task_group], a second
    dict that the methods below do not touch) and [list_groups] are left
    out. *)

Module VariableGroups.

Record VariableGroup := mkVariableGroup {
  description : string;
  variables : gmap string string;
  created_date : Z;
  scopes : list string
}.

(** [self.variable_groups] *)
Abbreviation Store := (gmap string VariableGroup).

Definition create_variable_group (name description : string)
    (variables : gmap string string) (now : Z) : Prog Store unit :=
  modify (λ gs, <[name := mkVariableGroup description variables now []]> gs);;
  print ("✅ Variable group '" +:+ name +:+ "' created").

(** [group['scopes'].append(scope)] *)
Definition scopes_append (scope : string) (g : VariableGroup) : VariableGroup :=
  mkVariableGroup (description g) (variables g) (created_date g)
                  (scopes g ++ [scope])%list.

Definition add_scope_to_variable_group (group_name scope : string)
    : Prog Store unit :=
  gs ← get;
  match gs !! group_name with
  | Some g =>
      modify (λ gs, <[group_name := scopes_append scope g]> gs);;
      print ("✅ Scope '" +:+ scope +:+ "' added to variable group '"
             +:+ group_name +:+ "'")
  | None => mret ()
  end.

End VariableGroups.

(** * [SelfHostedAgentManager] ([Assignment8.py])

    Agents and agent pools.  [generate_agent_setup_script] (two text
    templates) and [list_agents] are left out. *)

Module Agents.

Record Agent := mkAgent {
  id : string;
  name : string;
  os_type : string;
  pool : string;
  capabilities : list string;
  status : string;
  registered_date : Z;
  last_activity : Z
}.

Record Pool := mkPool {
  description : string;
  pool_agents : list string;
  created_date : Z
}.

Record Manager := mkManager {
  agents : gmap string Agent;
  agent_pools : gmap string Pool
}.

(** [SelfHostedAgentManager()] *)
Definition new_manager : Manager := mkManager ∅ ∅.

Definition create_agent_pool (name description : string) (now : Z)
    : Prog Manager unit :=
  modify (λ m, mkManager (agents m)
                 (<[name := mkPool description [] now]> (agent_pools m)));;
  print ("✅ Agent pool '" +:+ name +:+ "' created").

(** [pool['agents'].append(agent_id)] *)
Definition pool_agents_append (agent_id : string) (p : Pool) : Pool :=
  mkPool (description p) (pool_agents p ++ [agent_id])%list (created_date p).

Section WithDigest.

(** [hashlib.md5(data).hexdigest()], from Python's library. *)
Variable md5_hexdigest : string → string.

Definition agent_id_of (name : string) : string :=
  "agent-" +:+ String.substring 0 8 (md5_hexdigest name).

(** The clock is read twice, for ['registered_date'] and for
    ['last_activity']. *)
Definition register_agent (name os_type pool_name : string)
    (capabilities : list string) (now1 now2 : Z) : Prog Manager unit :=
  let agent_id := agent_id_of name in
  let agent := mkAgent agent_id name os_type pool_name capabilities "Online"
                       now1 now2 in
  modify (λ m, mkManager (<[name := agent]> (agents m)) (agent_pools m));;
  m ← get;
  match agent_pools m !! pool_name with
  | Some p =>
      modify (λ m, mkManager (agents m)
                     (<[pool_name := pool_agents_append agent_id p]>
                        (agent_pools m)))
  | None => mret ()
  end;;
  print ("✅ Agent '" +:+ name +:+ "' registered in pool '" +:+ pool_name
         +:+ "' (ID: " +:+ agent_id +:+ ")").

End WithDigest.

(** ** The calls as a transition system *)

Inductive Call :=
  | CreateAgentPool (name description : string) (now : Z)
  | RegisterAgent (name os_type pool_name : string)
                  (capabilities : list string) (now1 now2 : Z).

Definition step (md5_hexdigest : string → string) (m : Manager) (c : Call)
    : Manager :=
  match c with
  | CreateAgentPool n d now => state_after (create_agent_pool n d now m)
  | RegisterAgent n os p caps now1 now2 =>
      state_after (register_agent md5_hexdigest n os p caps now1 now2 m)
  end.

Inductive reachable (md5_hexdigest : string → string) : Manager → Prop :=
  | reachable_new : reachable md5_hexdigest new_manager
  | reachable_step m c :
      reachable md5_hexdigest m → reachable md5_hexdigest (step md5_hexdigest m c).

(** Every agent is stored under its name with the id of that name, and
    every id that a pool lists is the id of a stored agent. *)
Definition consistent (md5_hexdigest : string → string) (m : Manager) : Prop :=
  (∀ k a, agents m !! k = Some a →
          name a = k ∧ id a = agent_id_of md5_hexdigest k)
  ∧ (∀ k p x, agent_pools m !! k = Some p → x ∈ pool_agents p →
              ∃ a, agents m !! name a = Some a ∧ id a = x).

(** ** Sample run *)

Definition demo_digest (data : string) : string :=
  "5d41402abc4b2a76b9719d911017c592".

Definition demo_manager : Manager :=
  foldl (step demo_digest) new_manager
    [ CreateAgentPool "Linux-Agents" "Pool for Linux-based agents" 0;
      RegisterAgent "ubuntu-agent-01" "Linux" "Linux-Agents"
                    ["docker"; "nodejs"] 1 2 ].

End Agents.

(** * Proof tools *)

(** Unfold the plumbing of [Prog]. *)
Ltac run := unfold mbind, Prog_bind, mret, Prog_ret, get, modify, print; simpl.

(** Split on the innermost [match] of the goal. *)
Ltac case_inner :=
  match goal with
  | |- context [match ?x with _ => _ end] =>
      lazymatch x with
      | context [match _ with _ => _ end] => fail
      | _ => destruct x eqn:?
      end
  end.

(** * Properties of [AzureDevOpsSimulator] *)

Module DevOpsProps.
Import DevOps.
Local Open Scope nat_scope.

Ltac unfold_methods :=
  unfold create_user, login, create_group, add_user_to_group, create_branch,
    apply_branch_policy, apply_branch_security, lock_branch,
    apply_branch_filters, create_pull_request, approve_pull_request,
    complete_pull_request, create_work_item, link_work_item_to_pr,
    create_pipeline, apply_build_triggers, add_pipeline_gate, show_summary.

Lemma state_after_bind {St A B} (m : Prog St A) (k : A → Prog St B) s :
  state_after ((m ≫= k) s) = state_after (k (result (m s)) (state_after (m s))).
Proof.
  unfold mbind, Prog_bind, state_after, result.
  destruct (m s) as [[a s1] o1]; simpl.
  by destruct (k a s1) as [[b s2] o2].
Qed.

(** A loop whose body only prints leaves the object alone. *)
Lemma for_each_prints {St A} (l : list A) (body : A → Prog St unit) :
  (∀ x s, ∃ o, body x s = ((), s, o)) →
  ∀ s, ∃ o, for_each l body s = ((), s, o).
Proof.
  intros Hbody. induction l as [|x l IH]; intros s; simpl.
  - by eexists.
  - run. destruct (Hbody x s) as [o1 ->]. destruct (IH s) as [o2 ->].
    by eexists.
Qed.

Lemma run_pipeline_found pipeline_id now s p :
  pipelines s !! pipeline_id = Some p →
  result (run_pipeline pipeline_id now s) = true
  ∧ state_after (run_pipeline pipeline_id now s) =
      set_pipelines
        (<[pipeline_id := with_status SUCCEEDED
                            (with_last_run now (with_status RUNNING p))]>
           (pipelines s)) s.
Proof.
  intros Hp. unfold run_pipeline. run. rewrite Hp.
  match goal with
  | |- context [for_each ?l ?b ?s'] =>
      destruct (for_each_prints l b) with (s := s') as [o ->]
  end.
  - intros g s'. run. destruct (is_enabled g); [|by eexists].
    destruct (_ && _); by eexists.
  - unfold result, state_after, set_pipelines; simpl.
    by rewrite insert_insert_eq.
Qed.

Lemma reachable_steps s os : reachable s → reachable (steps s os).
Proof.
  revert s. induction os as [|o os IH]; intros s Hs; simpl; [done|].
  apply IH. by constructor.
Qed.

Lemma new_simulator_steps clock uuid8 :
  new_simulator clock uuid8 = steps empty_sim (initial_ops clock uuid8).
Proof.
  unfold new_simulator, _initialize_default_data, steps, initial_ops.
  cbn [foldl step].
  by rewrite !state_after_bind.
Qed.

Lemma new_simulator_reachable clock uuid8 :
  reachable (new_simulator clock uuid8).
Proof.
  rewrite new_simulator_steps. apply reachable_steps. constructor.
Qed.

(** ** Keys are never removed *)

Lemma step_keys_kept s o : keys_kept s (step s o).
Proof.
  unfold keys_kept. destruct o; simpl.
  19: { destruct (pipelines s !! pipeline_id) as [p|] eqn:Hp.
        - destruct (run_pipeline_found pipeline_id now s p Hp) as [_ ->].
          simpl. rewrite dom_insert. set_solver.
        - unfold run_pipeline. run. by rewrite Hp. }
  all: unfold_methods; run.
  all: repeat case_match; simpl; rewrite ?dom_insert; set_solver.
Qed.

Lemma keys_kept_trans s1 s2 s3 :
  keys_kept s1 s2 → keys_kept s2 s3 → keys_kept s1 s3.
Proof. unfold keys_kept. intuition (etrans; eauto). Qed.

(** C8.  No public operation removes a key from [users], [groups],
    [branches], [pull_requests], [work_items] or [pipelines]: every key of
    each dictionary before a call is a key of it after the call, and so
    after any sequence of calls. *)
Theorem no_operation_destroys_an_entity s :
  (∀ o, keys_kept s (step s o)) ∧ (∀ os, keys_kept s (steps s os)).
Proof.
  split; [apply step_keys_kept|].
  intros os. revert s. induction os as [|o os IH]; intros s; simpl.
  - by unfold keys_kept.
  - eapply keys_kept_trans; [apply step_keys_kept | apply IH].
Qed.

(** ** Approvals come from reviewers *)

Lemma step_approvals_from_reviewers s o :
  approvals_from_reviewers s → approvals_from_reviewers (step s o).
Proof.
  intros Hinv. destruct o; simpl.
  19: { destruct (pipelines s !! pipeline_id) as [p|] eqn:Hp.
        - by destruct (run_pipeline_found pipeline_id now s p Hp) as [_ ->].
        - unfold run_pipeline. run. by rewrite Hp. }
  all: unfold_methods; run.
  all: repeat (case_inner; simpl); try done.
  all: intros k pr' Hk who Hwho; simpl in *.
  all: apply lookup_insert_Some in Hk as [[<- <-]|[_ Hk]]; [|by eapply Hinv].
  all: simpl in *.
  all: try (by eapply Hinv).
  all: try (by apply elem_of_empty in Hwho).
  all: apply elem_of_union in Hwho as [Hwho|Hwho]; [|by eapply Hinv].
  all: apply elem_of_singleton in Hwho as ->; by eapply bool_decide_eq_true_1.
Qed.

Lemma reachable_approvals_from_reviewers s :
  reachable s → approvals_from_reviewers s.
Proof.
  induction 1 as [|s o _ IH].
  - intros k pr Hk. simpl in Hk. by rewrite lookup_empty in Hk.
  - by apply step_approvals_from_reviewers.
Qed.

Lemma size_list_to_set_le (l : list string) :
  size (list_to_set l : gset string) ≤ length l.
Proof.
  induction l as [|x l IH]; simpl; [done|].
  rewrite size_union_alt, size_singleton.
  assert (list_to_set l ∖ {[x]} ⊆ (list_to_set l : gset string)) as Hsub.
  { intros y Hy. by apply elem_of_difference in Hy as [? _]. }
  apply subseteq_size in Hsub. lia.
Qed.

(** As many approvals as reviewers, all of them from reviewers: every
    reviewer has approved. *)
Lemma all_reviewers_approved (reviewers : list string) (approvals : gset string) :
  (∀ u, u ∈ approvals → u ∈ reviewers) →
  length reviewers ≤ size approvals →
  ∀ r, r ∈ reviewers → r ∈ approvals.
Proof.
  intros Hsub Hlen r Hr.
  assert (approvals ⊆ list_to_set reviewers) as Hsub' by set_solver.
  pose proof (size_list_to_set_le reviewers).
  assert (approvals = list_to_set reviewers) as ->; [|set_solver].
  apply set_subseteq_size_eq; [done|lia].
Qed.

(** ** Completing a pull request *)

Lemma complete_pull_request_refused s k now pr :
  pull_requests s !! k = Some pr →
  size (pr_approvals pr) < length (pr_reviewers pr) →
  ∃ line, complete_pull_request k now s = (false, s, [line]).
Proof.
  intros Hpr Hlt. unfold complete_pull_request. run.
  destruct (logged_in s); [|by eexists]. rewrite Hpr.
  destruct (negb _ && _); [by eexists|].
  rewrite bool_decide_true by done. by eexists.
Qed.

(** C1.  A stored pull request with fewer approvals than reviewers is not
    completed: [complete_pull_request] on its id returns [False] and leaves
    the simulator, and with it the status of the pull request, as it was,
    whoever is logged in. *)
Theorem complete_pull_request_needs_approvals s now pr :
  pull_requests s !! pr_id pr = Some pr →
  size (pr_approvals pr) < length (pr_reviewers pr) →
  result (complete_pull_request (pr_id pr) now s) = false
  ∧ state_after (complete_pull_request (pr_id pr) now s) = s
  ∧ pr_status <$> pull_requests
                    (state_after (complete_pull_request (pr_id pr) now s))
                  !! pr_id pr
    = Some (pr_status pr).
Proof.
  intros Hpr Hlt.
  destruct (complete_pull_request_refused s (pr_id pr) now pr Hpr Hlt)
    as [line ->].
  unfold result, state_after; simpl. by rewrite Hpr.
Qed.

Lemma complete_pull_request_needs_approvals_witness :
  pull_requests demo_pr_unapproved !! "a1b2c3d4"
  = Some (demo_pr "developer1" "main" ["admin"])
  ∧ result (complete_pull_request "a1b2c3d4" 30 demo_pr_unapproved) = false
  ∧ state_after (complete_pull_request "a1b2c3d4" 30 demo_pr_unapproved)
    = demo_pr_unapproved.
Proof.
  assert (pull_requests demo_pr_unapproved
            !! pr_id (demo_pr "developer1" "main" ["admin"])
          = Some (demo_pr "developer1" "main" ["admin"])) as Hpr
    by (vm_compute; reflexivity).
  assert (size (pr_approvals (demo_pr "developer1" "main" ["admin"]))
          < length (pr_reviewers (demo_pr "developer1" "main" ["admin"])))
    as Hlt by (vm_compute; lia).
  split; [exact Hpr|].
  destruct (complete_pull_request_needs_approvals demo_pr_unapproved 30
              (demo_pr "developer1" "main" ["admin"]) Hpr Hlt)
    as (Hres & Hst & _).
  split; [exact Hres | exact Hst].
Defined.

(** What [complete_pull_request] does to a stored pull request. *)
Lemma complete_pull_request_stored s k now pr :
  pull_requests s !! k = Some pr →
  let r := complete_pull_request k now s in
  (¬ may_complete s pr ∧ result r = false ∧ state_after r = s)
  ∨ (may_complete s pr
     ∧ result r = true
     ∧ pull_requests (state_after r)
       = <[k := completed now pr]> (pull_requests s)).
Proof.
  intros Hpr. unfold complete_pull_request, may_complete. run.
  destruct (logged_in s) eqn:Hlog.
  2: { left. split; [|done]. intros [[? ?] _]. done. }
  rewrite Hpr.
  destruct (negb _ && _) eqn:Hadm.
  { left. split; [|done]. intros (_ & Hgate & _).
    apply andb_true_iff in Hadm as [Hadm Hmain].
    apply negb_true_iff in Hadm. apply String.eqb_eq in Hmain.
    destruct Hgate; congruence. }
  case_bool_decide as Hlen.
  { left. split; [|done]. intros (_ & _ & ?). lia. }
  right.
  assert (check_permission s (current_user s) PROJECT_ADMIN = true
          ∨ pr_target_branch pr ≠ "main") as Hgate.
  { apply andb_false_iff in Hadm as [Hadm|Hadm].
    - left. by apply negb_false_iff.
    - right. by apply String.eqb_neq. }
  split; [split; [done|split; [done|lia]]|].
  by destruct (branches s !! pr_target_branch pr).
Qed.

(** C2.  In a state reached through the public operations, when
    [complete_pull_request] takes a pull request from [ACTIVE] to
    [COMPLETED], every reviewer of the pull request is among its approvals,
    and if its target branch is ["main"] the logged-in user holds the role
    [PROJECT_ADMIN]. *)
Theorem completed_pull_request_was_approved s k now pr pr' :
  reachable s →
  pull_requests s !! k = Some pr →
  pr_status pr = ACTIVE →
  pull_requests (state_after (complete_pull_request k now s)) !! k = Some pr' →
  pr_status pr' = COMPLETED →
  (∀ r, r ∈ pr_reviewers pr' → r ∈ pr_approvals pr')
  ∧ (pr_target_branch pr' = "main" →
     ∃ actor usr, current_user s = Some actor
                  ∧ users s !! actor = Some usr
                  ∧ PROJECT_ADMIN ∈ u_roles usr).
Proof.
  intros Hreach Hpr Hact Hpr' Hdone.
  pose proof (reachable_approvals_from_reviewers s Hreach k pr Hpr) as Hsub.
  destruct (complete_pull_request_stored s k now pr Hpr)
    as [(_ & _ & Hst)|((_ & Hgate & Hlen) & _ & Hprs)].
  - rewrite Hst, Hpr in Hpr'. congruence.
  - rewrite Hprs, lookup_insert_eq in Hpr'. injection Hpr' as <-. simpl.
    split; [by apply all_reviewers_approved|].
    intros Hmain. destruct Hgate as [Hadm|]; [|done].
    unfold check_permission in Hadm.
    destruct (current_user s) as [actor|]; [|done].
    destruct (users s !! actor) as [usr|] eqn:Husr; [|done].
    exists actor, usr. split; [done|]. split; [done|].
    by apply bool_decide_eq_true in Hadm.
Qed.

Lemma completed_pull_request_was_approved_witness :
  ∃ pr', pull_requests (state_after (complete_pull_request "a1b2c3d4" 30
                                       demo_pr_to_main)) !! "a1b2c3d4"
         = Some pr'
         ∧ pr_status pr' = COMPLETED
         ∧ (∀ r, r ∈ pr_reviewers pr' → r ∈ pr_approvals pr')
         ∧ (pr_target_branch pr' = "main" →
            ∃ actor usr, current_user demo_pr_to_main = Some actor
                         ∧ users demo_pr_to_main !! actor = Some usr
                         ∧ PROJECT_ADMIN ∈ u_roles usr).
Proof.
  set (pr := approvals_add "admin" (demo_pr "admin" "main" ["admin"])).
  exists (completed 30 pr).
  assert (reachable demo_pr_to_main) as Hreach
    by (apply reachable_steps, new_simulator_reachable).
  assert (pull_requests demo_pr_to_main !! "a1b2c3d4" = Some pr) as Hpr
    by (vm_compute; reflexivity).
  assert (pull_requests (state_after (complete_pull_request "a1b2c3d4" 30
                                        demo_pr_to_main)) !! "a1b2c3d4"
          = Some (completed 30 pr)) as Hpr'
    by (vm_compute; reflexivity).
  split; [exact Hpr'|]. split; [reflexivity|].
  exact (completed_pull_request_was_approved demo_pr_to_main "a1b2c3d4" 30 pr
           (completed 30 pr) Hreach Hpr eq_refl Hpr' eq_refl).
Defined.

(** C4, against the claim.  [developer1] opens a pull request to [develop]
    and completes it: the pull request goes from [ACTIVE] to [COMPLETED]
    although its author is not among its reviewers (it has none). *)
Lemma merged_without_author_among_reviewers :
  reachable demo_pr_to_develop
  ∧ pull_requests demo_pr_to_develop !! "a1b2c3d4"
    = Some (demo_pr "developer1" "develop" [])
  ∧ result (complete_pull_request "a1b2c3d4" 30 demo_pr_to_develop) = true
  ∧ pull_requests
      (state_after (complete_pull_request "a1b2c3d4" 30 demo_pr_to_develop))
    !! "a1b2c3d4"
    = Some (completed 30 (demo_pr "developer1" "develop" []))
  ∧ pr_status (completed 30 (demo_pr "developer1" "develop" [])) = COMPLETED
  ∧ pr_author (completed 30 (demo_pr "developer1" "develop" []))
    ∉ pr_reviewers (completed 30 (demo_pr "developer1" "develop" [])).
Proof.
  split; [apply reachable_steps, new_simulator_reachable|].
  split; [vm_compute; reflexivity|].
  split; [vm_compute; reflexivity|].
  split; [vm_compute; reflexivity|].
  split; [reflexivity|].
  simpl. apply not_elem_of_nil.
Qed.

(** C4, as the code has it.  [complete_pull_request] merges a stored pull
    request exactly when somebody is logged in, that user is a project
    administrator or the target is not ["main"], and the approvals are at
    least as many as the reviewers; the pull request is then [COMPLETED].
    The author is not looked at: the same call on the pull request with any
    other author gives the same answer. *)
Theorem complete_pull_request_ignores_author s k now pr :
  pull_requests s !! k = Some pr →
  (result (complete_pull_request k now s) = true ↔ may_complete s pr)
  ∧ (result (complete_pull_request k now s) = true →
     pr_status <$> pull_requests (state_after (complete_pull_request k now s))
                   !! k
     = Some COMPLETED)
  ∧ (∀ author,
       result (complete_pull_request k now
                 (set_pull_requests
                    (<[k := with_author author pr]> (pull_requests s)) s))
       = result (complete_pull_request k now s)).
Proof.
  intros Hpr.
  destruct (complete_pull_request_stored s k now pr Hpr)
    as [(Hno & Hres & Hst)|(Hyes & Hres & Hprs)].
  - split; [rewrite Hres; split; [done|by intros ?]|].
    split; [by rewrite Hres|].
    intros author. set (pr2 := with_author author pr).
    set (s2 := set_pull_requests (<[k := pr2]> (pull_requests s)) s).
    assert (pull_requests s2 !! k = Some pr2) as Hpr2
      by (simpl; apply lookup_insert_eq).
    destruct (complete_pull_request_stored s2 k now pr2 Hpr2)
      as [(_ & Hres2 & _)|(Hyes2 & _)]; [congruence|].
    by destruct Hno.
  - split; [by rewrite Hres|].
    split; [intros _; by rewrite Hprs, lookup_insert_eq|].
    intros author. set (pr2 := with_author author pr).
    set (s2 := set_pull_requests (<[k := pr2]> (pull_requests s)) s).
    assert (pull_requests s2 !! k = Some pr2) as Hpr2
      by (simpl; apply lookup_insert_eq).
    destruct (complete_pull_request_stored s2 k now pr2 Hpr2)
      as [(Hno2 & _)|(_ & Hres2 & _)]; [|congruence].
    by destruct Hno2.
Qed.

Lemma complete_pull_request_ignores_author_witness :
  result (complete_pull_request "a1b2c3d4" 30 demo_pr_to_develop) = true
  ∧ pr_status <$> pull_requests
                    (state_after (complete_pull_request "a1b2c3d4" 30
                                    demo_pr_to_develop)) !! "a1b2c3d4"
    = Some COMPLETED.
Proof.
  set (pr := demo_pr "developer1" "develop" []).
  assert (pull_requests demo_pr_to_develop !! "a1b2c3d4" = Some pr) as Hpr
    by (vm_compute; reflexivity).
  destruct (complete_pull_request_ignores_author demo_pr_to_develop
              "a1b2c3d4" 30 pr Hpr) as (_ & Hdone & _).
  assert (result (complete_pull_request "a1b2c3d4" 30 demo_pr_to_develop)
          = true) as Hres by (vm_compute; reflexivity).
  split; [exact Hres | exact (Hdone Hres)].
Defined.

(** ** Group membership *)

Lemma members_add_twice u g : members_add u (members_add u g) = members_add u g.
Proof.
  unfold members_add; simpl. f_equal. by rewrite (assoc_L _), union_idemp_L.
Qed.

(** C6.  [add_user_to_group] is idempotent: a second call with the same
    arguments leaves the simulator as the first call left it, returns what
    the first returned and prints the same line. *)
Theorem add_user_to_group_idempotent s username group_name :
  let r1 := add_user_to_group username group_name s in
  let r2 := add_user_to_group username group_name (state_after r1) in
  state_after r2 = state_after r1
  ∧ result r2 = result r1
  ∧ console r2 = console r1.
Proof.
  unfold add_user_to_group, state_after, result, console. run.
  destruct (users s !! username) as [usr|] eqn:Husr; simpl; [|by rewrite Husr].
  destruct (groups s !! group_name) as [g|] eqn:Hg; simpl.
  - rewrite Husr, lookup_insert_eq. simpl. unfold set_groups; simpl.
    by rewrite insert_insert_eq, members_add_twice.
  - by rewrite Husr, Hg.
Qed.

(** ** Unknown identifiers *)

(** C7.  A call that names an entity that does not exist prints one line,
    returns [False] and leaves the simulator as it was: [apply_branch_policy]
    on an unknown branch, [approve_pull_request] and [complete_pull_request]
    on an unknown pull request, [run_pipeline] and [apply_build_triggers] on
    an unknown pipeline, [add_user_to_group] with an unknown user or an
    unknown group. *)
Theorem unknown_entity_is_noop s :
  (∀ branch_name policy,
     branches s !! branch_name = None →
     ∃ line, apply_branch_policy branch_name policy s = (false, s, [line]))
  ∧ (∀ k,
     pull_requests s !! k = None →
     ∃ line, approve_pull_request k s = (false, s, [line]))
  ∧ (∀ k now,
     pull_requests s !! k = None →
     ∃ line, complete_pull_request k now s = (false, s, [line]))
  ∧ (∀ pipeline_id now,
     pipelines s !! pipeline_id = None →
     ∃ line, run_pipeline pipeline_id now s = (false, s, [line]))
  ∧ (∀ pipeline_id triggers,
     pipelines s !! pipeline_id = None →
     ∃ line, apply_build_triggers pipeline_id triggers s = (false, s, [line]))
  ∧ (∀ username group_name,
     users s !! username = None ∨ groups s !! group_name = None →
     ∃ line, add_user_to_group username group_name s = (false, s, [line])).
Proof.
  repeat split.
  - intros b p Hb. unfold apply_branch_policy. run. rewrite Hb. by eexists.
  - intros k Hk. unfold approve_pull_request. run.
    destruct (logged_in s); [rewrite Hk|]; by eexists.
  - intros k now Hk. unfold complete_pull_request. run.
    destruct (logged_in s); [rewrite Hk|]; by eexists.
  - intros p now Hp. unfold run_pipeline. run. rewrite Hp. by eexists.
  - intros p t Hp. unfold apply_build_triggers. run. rewrite Hp. by eexists.
  - intros u g [Hu|Hg]; unfold add_user_to_group; run.
    + rewrite Hu. by eexists.
    + rewrite Hg. destruct (users s !! u); by eexists.
Qed.

Lemma unknown_entity_is_noop_witness :
  (∃ line, apply_branch_policy "release" default_BranchPolicy demo_sim
           = (false, demo_sim, [line]))
  ∧ (∃ line, approve_pull_request "ffffffff" demo_sim
             = (false, demo_sim, [line]))
  ∧ (∃ line, complete_pull_request "ffffffff" 30 demo_sim
             = (false, demo_sim, [line]))
  ∧ (∃ line, run_pipeline "ffffffff" 30 demo_sim = (false, demo_sim, [line]))
  ∧ (∃ line, apply_build_triggers "ffffffff" default_BuildTrigger demo_sim
             = (false, demo_sim, [line]))
  ∧ (∃ line, add_user_to_group "nobody" "Developers" demo_sim
             = (false, demo_sim, [line])).
Proof.
  destruct (unknown_entity_is_noop demo_sim)
    as (Hpol & Happ & Hcom & Hrun & Htrg & Hadd).
  split; [apply Hpol; vm_compute; reflexivity|].
  split; [apply Happ; vm_compute; reflexivity|].
  split; [apply Hcom; vm_compute; reflexivity|].
  split; [apply Hrun; vm_compute; reflexivity|].
  split; [apply Htrg; vm_compute; reflexivity|].
  apply Hadd. left. vm_compute. reflexivity.
Defined.

(** ** The gate on pull requests to [main] *)

(** Who is logged in: [self.current_user], unless it is the empty string. *)
Lemma logged_in_Some s u :
  logged_in s = Some u ↔ current_user s = Some u ∧ u ≠ EmptyString.
Proof.
  unfold logged_in. destruct (current_user s) as [[|c v]|].
  - split; [done|]. by intros [[= <-] ?].
  - split; [by intros [= <-]|]. by intros [[= <-] _].
  - split; [done|]. by intros [? _].
Qed.

(** A logged-in user whom [_can_create_pr_to_main] lets through gets the
    pull request to ["main"], and it is stored. *)
Lemma create_pull_request_to_main s u title src desc wis k now :
  logged_in s = Some u →
  _can_create_pr_to_main s = true →
  ∃ pr, result (create_pull_request title src "main" desc wis k now s) = Some pr
        ∧ pr_author pr = u
        ∧ pull_requests
            (state_after (create_pull_request title src "main" desc wis k now s))
          !! k = Some pr.
Proof.
  intros Hlog Hcan. unfold create_pull_request, state_after, result. run.
  rewrite Hlog, Hcan. simpl.
  eexists. split; [done|]. split; [done|]. apply lookup_insert_eq.
Qed.

(** C10.  The gate on pull requests to ["main"] lets through whoever it
    knows nothing about.  For a logged-in user (the code's test:
    [self.current_user] is neither [None] nor empty) with no entry in the
    [user_permissions] of the security of ["main"], or when ["main"] has no
    security (or does not exist), [_can_create_pr_to_main] is [True] and
    [create_pull_request] to ["main"] returns the pull request.  When the
    user has an entry, the answer is whether its ["GenericRead"] is [ALLOW]
    ([DENY] when absent) and nothing else: with ["GenericRead"] at [ALLOW]
    the pull request to ["main"] is created. *)
Theorem pr_to_main_allowed_by_default s u :
  logged_in s = Some u →
  ((branches s !! "main" = None
    ∨ (∃ b, branches s !! "main" = Some b ∧ b_security b = None)
    ∨ (∃ b sec, branches s !! "main" = Some b ∧ b_security b = Some sec
                ∧ user_permissions sec !! u = None)) →
   _can_create_pr_to_main s = true
   ∧ ∀ title src desc wis k now,
       ∃ pr, result (create_pull_request title src "main" desc wis k now s)
             = Some pr)
  ∧ (∀ b sec perms,
       branches s !! "main" = Some b → b_security b = Some sec →
       user_permissions sec !! u = Some perms →
       _can_create_pr_to_main s
       = bool_decide (default DENY (perms !! "GenericRead") = ALLOW)
       ∧ (perms !! "GenericRead" = Some ALLOW →
          ∀ title src desc wis k now,
            ∃ pr, result (create_pull_request title src "main" desc wis k now s)
                  = Some pr)).
Proof.
  intros Hlog. split.
  - intros Hcase.
    assert (_can_create_pr_to_main s = true) as Hcan.
    { unfold _can_create_pr_to_main. rewrite Hlog.
      destruct Hcase as [->|[(b & -> & Hsec)|(b & sec & -> & Hsec & Hperm)]].
      - done.
      - destruct b; simpl in *. by subst.
      - destruct b; simpl in *. subst. by rewrite Hperm. }
    split; [done|]. intros title src desc wis k now.
    destruct (create_pull_request_to_main s u title src desc wis k now Hlog Hcan)
      as (pr & Hpr & _). by exists pr.
  - intros b sec perms Hb Hsec Hperm.
    assert (_can_create_pr_to_main s
            = bool_decide (default DENY (perms !! "GenericRead") = ALLOW))
      as Hcan.
    { unfold _can_create_pr_to_main. rewrite Hlog, Hb.
      destruct b; simpl in *. subst. by rewrite Hperm. }
    split; [done|]. intros Hread title src desc wis k now.
    rewrite Hread in Hcan. simpl in Hcan.
    destruct (create_pull_request_to_main s u title src desc wis k now Hlog Hcan)
      as (pr & Hpr & _). by exists pr.
Qed.

Lemma pr_to_main_allowed_by_default_witness :
  _can_create_pr_to_main demo_reader = true
  ∧ ∃ pr, result (create_pull_request "Fix typo" "develop" "main" EmptyString
                    None "0f1e2d3c" 30 demo_reader) = Some pr.
Proof.
  assert (logged_in demo_reader = Some "reader") as Hlog
    by (vm_compute; reflexivity).
  destruct (pr_to_main_allowed_by_default demo_reader "reader" Hlog)
    as [Hdefault _].
  destruct Hdefault as [Hcan Hpr].
  - right. right.
    exists (mkBranch "main" true
              (Some (mkBranchPolicy true true 2 true true false true))
              (Some (new_security "main")) [] 6),
           (new_security "main").
    split; [vm_compute; reflexivity|].
    split; [reflexivity|]. vm_compute. reflexivity.
  - split; [exact Hcan|].
    apply (Hpr "Fix typo" "develop" EmptyString None "0f1e2d3c" 30%Z).
Defined.

End DevOpsProps.

(** * Properties of [PipelineVariableManager] *)

Module VariablesProps.
Import Variables.

(** C9.  Reading a variable back ignores secrecy: [get_variable] after
    [add_variable] returns the value as given, secret or not.  The stars are
    only in the stored ['value'] field, which [get_variable] does not
    read. *)
Theorem get_variable_after_add_variable vs scope name v is_secret :
  get_variable (state_after (add_variable scope name v is_secret vs)) scope name
  = Some v
  ∧ ∃ entry,
      state_after (add_variable scope name v is_secret vs) !! scope
        ≫= (.!! name) = Some entry
      ∧ actual_value entry = v
      ∧ value entry = if is_secret then stars (String.length v) else v.
Proof.
  unfold add_variable, get_variable, state_after.
  unfold mbind at 1 2, Prog_bind, modify, print; simpl.
  rewrite !lookup_insert_eq. simpl. rewrite !lookup_insert_eq.
  split; [done|]. eexists. by split.
Qed.

End VariablesProps.

(** * Properties of [ReleaseApprovalManager] *)

Module ApprovalsProps.
Import Approvals.

(** The status that [respond] leaves is the old one or a verdict. *)
Lemma respond_status m approver decision comment now r :
  status (respond m approver decision comment now r) = status r
  ∨ resolved (status (respond m approver decision comment now r)).
Proof.
  unfold respond, resolved; simpl.
  destruct (Nat.eqb _ _); [|by left].
  destruct (all_approved _); right; [by left|by right].
Qed.

Lemma respond_keeps_resolved m approver decision comment now r :
  resolved (status r) →
  resolved (status (respond m approver decision comment now r)).
Proof.
  intros Hr. destruct (respond_status m approver decision comment now r)
    as [->|]; done.
Qed.

Lemma all_approved_spec (rs : gmap string Response) :
  all_approved rs = true
  ↔ ∀ a resp, rs !! a = Some resp → decision resp = "Approved".
Proof.
  unfold all_approved. rewrite forallb_forall. split.
  - intros Hall a resp Hresp. apply String.eqb_eq.
    apply (Hall (a, resp)). apply list_elem_of_In.
    by apply elem_of_map_to_list.
  - intros Hall [a resp] Hin. apply String.eqb_eq. simpl.
    apply (Hall a). apply elem_of_map_to_list. by apply list_elem_of_In.
Qed.

(** When the approvers of a request are all different and only they have
    responded, [respond] does what its comment says: it leaves the status
    alone while somebody has yet to respond, and sets it once all have. *)
Lemma respond_distinct_approvers m approver decision comment now r :
  NoDup (approvers_of m r) →
  approver ∈ approvers_of m r →
  (∀ a, a ∈ dom (responses r) → a ∈ approvers_of m r) →
  (all_responded m (respond m approver decision comment now r) →
   status (respond m approver decision comment now r)
   = if all_approved (responses (respond m approver decision comment now r))
     then "Approved" else "Rejected")
  ∧ (¬ all_responded m (respond m approver decision comment now r) →
     status (respond m approver decision comment now r) = status r).
Proof.
  intros Hnodup Happ Hsub. unfold all_responded, approvers_of, respond; simpl.
  fold (approvers_of m r).
  set (rs' := <[approver := mkResponse decision comment now]> (responses r)).
  assert (dom rs' ⊆ list_to_set (approvers_of m r)) as Hsub'.
  { unfold rs'. rewrite dom_insert. intros a Ha. apply elem_of_list_to_set.
    apply elem_of_union in Ha as [Ha|Ha]; [|by apply Hsub].
    by apply elem_of_singleton in Ha as ->. }
  assert (length (approvers_of m r)
          = size (list_to_set (approvers_of m r) : gset string)) as Hlen
    by by rewrite size_list_to_set.
  assert (size rs' = size (dom rs')) as Hsize by by rewrite size_dom.
  destruct (Nat.eqb _ _) eqn:Heq.
  - apply Nat.eqb_eq in Heq. split; [done|].
    intros Hnot. destruct Hnot. intros a Ha.
    assert (dom rs' = list_to_set (approvers_of m r)) as ->
      by (apply set_subseteq_size_eq; [done|lia]).
    by apply elem_of_list_to_set.
  - apply Nat.eqb_neq in Heq. split; [|done].
    intros Hall. destruct Heq.
    assert (list_to_set (approvers_of m r) ⊆ dom rs') as Hsup.
    { intros a Ha. apply Hall. by apply elem_of_list_to_set in Ha. }
    apply subseteq_size in Hsub', Hsup. lia.
Qed.

(** One request of the list takes the response, the others stay. *)
Lemma process_loop_at m request_id approver decision comment now rs rs' :
  process_loop m request_id approver decision comment now rs = Some rs' →
  ∀ i r, rs !! i = Some r →
    rs' !! i = Some r
    ∨ rs' !! i = Some (respond m approver decision comment now r).
Proof.
  revert rs'. induction rs as [|r0 rs IH]; intros rs' Hloop i r Hi; [done|].
  simpl in Hloop. destruct (_ && _).
  - injection Hloop as <-. destruct i as [|i]; simpl in *.
    + injection Hi as ->. by right.
    + by left.
  - destruct (process_loop _ _ _ _ _ _ rs) as [rs1|]; [|done].
    injection Hloop as <-. destruct i as [|i]; simpl in *.
    + by left.
    + by apply IH.
Qed.

(** What one call does to the status of a request that is already there. *)
Lemma step_status_at md5 m c i st :
  status_at m i = Some st →
  ∃ st', status_at (step md5 m c) i = Some st'
         ∧ (st' = st ∨ resolved st')
         ∧ (resolved st → resolved st').
Proof.
  unfold status_at. intros Hst.
  destruct (approval_requests m !! i) as [r|] eqn:Hr; [|done].
  injection Hst as <-.
  assert (∃ st', status <$> approval_requests m !! i = Some st'
                 ∧ (st' = status r ∨ resolved st')
                 ∧ (resolved (status r) → resolved st')) as Hsame.
  { rewrite Hr. exists (status r). by split; [|split; [left|]]. }
  assert (∀ new, ∃ st',
            status <$> (approval_requests m ++ new)%list !! i = Some st'
            ∧ (st' = status r ∨ resolved st')
            ∧ (resolved (status r) → resolved st')) as Hmore.
  { intros new. rewrite lookup_app_l by by eapply lookup_lt_Some.
    done. }
  destruct c; simpl.
  - done.
  - unfold add_approver, state_after. run.
    destruct (environments m !! environment0); [|done].
    destruct (String.eqb _ _); [done|]. by destruct (String.eqb _ _).
  - unfold request_approval, send_request, state_after. run.
    destruct (String.eqb approval_type "pre").
    { destruct (environments m !! environment0); simpl; [apply Hmore|done]. }
    destruct (String.eqb approval_type "post").
    { destruct (environments m !! environment0); simpl; [apply Hmore|done]. }
    apply Hmore.
  - unfold process_approval, state_after. run.
    destruct (process_loop _ _ _ _ _ _ _) as [rs'|] eqn:Hloop; simpl;
      [|done].
    destruct (process_loop_at _ _ _ _ _ _ _ _ Hloop i r Hr) as [->| ->]; simpl.
    + exists (status r). by split; [|split; [left|]].
    + eexists. split; [done|]. split.
      * apply respond_status.
      * apply respond_keeps_resolved.
  - unfold list_approval_requests, state_after. run.
    match goal with
    | |- context [for_each ?l ?b ?s'] =>
        destruct (DevOpsProps.for_each_prints l b) with (s := s') as [o ->]
    end; [|done].
    intros x s'. run. by eexists.
Qed.

(** C5, against the claim.  The only approver of a request approves it, and
    the request is ["Approved"]; the same approver answers again with
    another decision, and the request is ["Rejected"]. *)
Lemma resolved_status_changes :
  status_at demo_approved 0 = Some "Approved"
  ∧ status_at (step demo_digest demo_approved
                 (ProcessApproval demo_request_id "lead@company.com"
                                  "Rejected" "Found a problem" 3)) 0
    = Some "Rejected".
Proof. split; vm_compute; reflexivity. Qed.

(** C5, as the code has it.  Over any sequence of calls the status of a
    request never goes back to ["Pending"]: a status that is ["Approved"] or
    ["Rejected"] stays one of the two, and a status that changes at all
    becomes one of the two.  (It may change between the two: the status is
    set anew at each accepted response that leaves as many responses as
    approvers.) *)
Theorem status_never_returns_to_pending md5 m cs i st :
  status_at m i = Some st →
  ∃ st', status_at (steps md5 m cs) i = Some st'
         ∧ (st' = st ∨ resolved st')
         ∧ (resolved st → resolved st').
Proof.
  revert m st. induction cs as [|c cs IH]; intros m st Hst; simpl.
  - exists st. by split; [|split; [left|]].
  - destruct (step_status_at md5 m c i st Hst) as (st1 & Hst1 & Hch1 & Hres1).
    destruct (IH _ _ Hst1) as (st2 & Hst2 & Hch2 & Hres2).
    exists st2. split; [done|]. split.
    + destruct Hch2 as [->|]; [done|by right].
    + intros Hr. by apply Hres2, Hres1.
Qed.

Lemma status_never_returns_to_pending_witness :
  ∃ st', status_at demo_changed_mind 0 = Some st' ∧ resolved st'.
Proof.
  assert (status_at demo_approved 0 = Some "Approved") as Hst
    by (vm_compute; reflexivity).
  destruct (status_never_returns_to_pending demo_digest demo_approved
              [ProcessApproval demo_request_id "lead@company.com" "Rejected"
                               "Found a problem" 3] 0 "Approved" Hst)
    as (st' & Hst' & _ & Hres).
  exists st'. split; [exact Hst'|]. apply Hres. by left.
Defined.

(** C3, on the failing input.  An environment lists the same approver
    twice.  After that approver has approved, every approver the request
    lists has responded and every recorded decision is ["Approved"], yet the
    request is still ["Pending"]: it has one response and two approvers. *)
Theorem approver_listed_twice_stays_pending :
  ∃ r, approval_requests demo_listed_twice = [r]
       ∧ approvers_of demo_listed_twice r
         = ["lead@company.com"; "lead@company.com"]
       ∧ all_responded demo_listed_twice r
       ∧ all_approved (responses r) = true
       ∧ status r = "Pending".
Proof.
  eexists. split; [vm_compute; reflexivity|].
  split; [vm_compute; reflexivity|].
  split; [|split; vm_compute; reflexivity].
  intros a Ha. vm_compute in Ha.
  apply elem_of_dom. simpl.
  assert (a = "lead@company.com") as ->.
  { apply elem_of_cons in Ha as [->|Ha]; [done|].
    apply elem_of_cons in Ha as [->|Ha]; [done|]. by apply elem_of_nil in Ha. }
  vm_compute. by eexists.
Qed.

End ApprovalsProps.

(** * Further properties of [AzureDevOpsSimulator] *)

Module DevOpsMore.
Import DevOps DevOpsProps.
Local Open Scope nat_scope.

(** ** Invariants of the reachable states *)

Lemma step_stored_under_own_id s o :
  stored_under_own_id s → stored_under_own_id (step s o).
Proof.
  intros (Hu & Hg & Hb & Hp & Hw & Hpi). unfold stored_under_own_id.
  destruct o; simpl.
  19: { destruct (pipelines s !! pipeline_id) as [p|] eqn:Hpl.
        - destruct (run_pipeline_found pipeline_id now s p Hpl) as [_ ->].
          simpl. repeat split; eauto; try (by apply Hb).
          intros k p' Hk.
          apply lookup_insert_Some in Hk as [[<- <-]|[_ Hk]]; simpl; eauto.
        - unfold run_pipeline. run. rewrite Hpl. simpl.
          repeat split; eauto; by apply Hb. }
  all: unfold_methods; run.
  all: repeat (case_inner; simpl).
  all: (split; [|split; [|split; [|split; [|split]]]]); intros k x Hk;
         simpl in *.
  all: try (by eauto); try (by apply Hb).
  all: apply lookup_insert_Some in Hk as [[<- <-]|[_ Hk]]; simpl.
  all: try (by eauto); try (by eapply Hb).
  all: match goal with
       | H : branches _ !! _ = Some _ |- _ =>
           destruct (Hb _ _ H) as [Hn Hs]
       end; simpl in *.
  all: (split; [done|]); intros sec [= <-]; simpl; eauto.
Qed.

Lemma step_pull_requests_shaped s o :
  pull_requests_shaped s → pull_requests_shaped (step s o).
Proof.
  intros Hinv. unfold pull_requests_shaped. destruct o; simpl.
  19: { destruct (pipelines s !! pipeline_id) as [p|] eqn:Hp.
        - by destruct (run_pipeline_found pipeline_id now s p Hp) as [_ ->].
        - unfold run_pipeline. run. by rewrite Hp. }
  all: unfold_methods; run.
  all: repeat (case_inner; simpl); try done.
  all: intros k pr' Hk; simpl in *.
  all: apply lookup_insert_Some in Hk as [[<- <-]|[_ Hk]]; [|by eapply Hinv].
  all: try match goal with
       | H : pull_requests _ !! _ = Some _ |- _ =>
           destruct (Hinv _ _ H) as (Hst & Hrev & Hau)
       end.
  all: try match goal with
       | H : logged_in _ = Some _ |- _ =>
           apply logged_in_Some in H as [_ Hne]
       end.
  all: unfold pull_request_shape; simpl in *.
  all: split;
         [first [exact Hst | by left | by right; split; [|eexists]]|].
  all: split; [|done].
  all: first [exact Hrev | by left | right; split; [done|]].
  by apply String.eqb_eq.
Qed.

Lemma reachable_pull_requests_shaped s :
  reachable s → pull_requests_shaped s.
Proof.
  induction 1 as [|s o _ IH]; [|by apply step_pull_requests_shaped].
  intros k x Hk. simpl in Hk. by rewrite lookup_empty in Hk.
Qed.

(** X1.  In every state the public operations can reach, each user, group,
    branch, pull request, work item and pipeline is stored under its own
    identifier ([username], [name] or [id]), and the security object of a
    branch carries the name of that branch. *)
Theorem entities_stored_under_own_id s :
  reachable s → stored_under_own_id s.
Proof.
  induction 1 as [|s o _ IH]; [|by apply step_stored_under_own_id].
  unfold stored_under_own_id; simpl.
  (split; [|split; [|split; [|split; [|split]]]]); intros k x Hk;
    by rewrite lookup_empty in Hk.
Qed.

Lemma entities_stored_under_own_id_witness :
  stored_under_own_id demo_pr_to_main.
Proof.
  apply entities_stored_under_own_id.
  apply reachable_steps, new_simulator_reachable.
Defined.

(** X2.  No operation abandons a pull request: in every reachable state a
    stored pull request is [ACTIVE] with no completion date or [COMPLETED]
    with one, never [ABANDONED]. *)
Theorem no_pull_request_is_abandoned s k pr :
  reachable s →
  pull_requests s !! k = Some pr →
  pr_status pr ≠ ABANDONED
  ∧ (pr_status pr = ACTIVE ↔ pr_completed_date pr = None)
  ∧ (pr_status pr = COMPLETED ↔ is_Some (pr_completed_date pr)).
Proof.
  intros Hreach Hpr.
  destruct (reachable_pull_requests_shaped s Hreach k pr Hpr)
    as ([[-> ->]|[-> [d ->]]] & _).
  - split; [done|]. split; [done|]. split; [done|]. by intros [? ?].
  - split; [done|]. split; [done|]. split; [by eexists|done].
Qed.

Lemma no_pull_request_is_abandoned_witness :
  pr_status (approvals_add "admin" (demo_pr "admin" "main" ["admin"]))
  ≠ ABANDONED.
Proof.
  assert (reachable demo_pr_to_main) as Hreach
    by (apply reachable_steps, new_simulator_reachable).
  assert (pull_requests demo_pr_to_main !! "a1b2c3d4"
          = Some (approvals_add "admin" (demo_pr "admin" "main" ["admin"])))
    as Hpr by (vm_compute; reflexivity).
  exact (proj1 (no_pull_request_is_abandoned demo_pr_to_main "a1b2c3d4" _
                  Hreach Hpr)).
Defined.

(** X3.  Only ["admin"] is ever a reviewer.  In every reachable state the
    reviewers of a pull request are nobody, or ["admin"] alone when the
    target is ["main"]; its approvals hold nobody but ["admin"], and a pull
    request to another branch has no approval at all. *)
Theorem only_admin_reviews s k pr :
  reachable s →
  pull_requests s !! k = Some pr →
  (pr_reviewers pr = []
   ∨ pr_reviewers pr = ["admin"] ∧ pr_target_branch pr = "main")
  ∧ pr_approvals pr ⊆ {["admin"]}
  ∧ (pr_target_branch pr ≠ "main" → pr_approvals pr = ∅).
Proof.
  intros Hreach Hpr.
  destruct (reachable_pull_requests_shaped s Hreach k pr Hpr)
    as (_ & Hrev & _).
  pose proof (reachable_approvals_from_reviewers s Hreach k pr Hpr) as Hsub.
  split; [done|]. destruct Hrev as [Hrev|[Hrev Hmain]]; rewrite Hrev in Hsub.
  - assert (pr_approvals pr = ∅) as ->; [|done].
    apply set_eq. intros u. split; [|by intros ?%elem_of_empty].
    intros Hu. by apply Hsub, elem_of_nil in Hu.
  - split; [|done]. intros u Hu. apply Hsub in Hu.
    apply elem_of_singleton. by apply list_elem_of_singleton in Hu.
Qed.

Lemma only_admin_reviews_witness :
  pr_reviewers (demo_pr "developer1" "main" ["admin"]) = ["admin"]
  ∧ pr_approvals (demo_pr "developer1" "main" ["admin"]) ⊆ {["admin"]}.
Proof.
  assert (reachable demo_pr_unapproved) as Hreach
    by (apply reachable_steps, new_simulator_reachable).
  assert (pull_requests demo_pr_unapproved !! "a1b2c3d4"
          = Some (demo_pr "developer1" "main" ["admin"]))
    as Hpr by (vm_compute; reflexivity).
  destruct (only_admin_reviews demo_pr_unapproved "a1b2c3d4" _ Hreach Hpr)
    as (_ & Hsub & _).
  split; [reflexivity | exact Hsub].
Defined.
(** ** Approving and completing *)

Lemma approvals_add_twice u pr :
  approvals_add u (approvals_add u pr) = approvals_add u pr.
Proof.
  unfold approvals_add; simpl. f_equal. by rewrite (assoc_L _), union_idemp_L.
Qed.

(** X4.  [approve_pull_request] is idempotent: a second approval by the same
    user leaves the simulator as the first left it, with the same return
    value and the same lines printed; the approvals are a set. *)
Theorem approve_pull_request_idempotent s k :
  state_after (approve_pull_request k (state_after (approve_pull_request k s)))
  = state_after (approve_pull_request k s)
  ∧ result (approve_pull_request k (state_after (approve_pull_request k s)))
    = result (approve_pull_request k s)
  ∧ console (approve_pull_request k (state_after (approve_pull_request k s)))
    = console (approve_pull_request k s).
Proof.
  destruct (logged_in s) as [u|] eqn:Hlog.
  2: { unfold approve_pull_request, state_after, result, console. run.
       rewrite Hlog. simpl. by rewrite Hlog. }
  destruct (pull_requests s !! k) as [pr|] eqn:Hpr.
  2: { unfold approve_pull_request, state_after, result, console. run.
       rewrite Hlog, Hpr. simpl. by rewrite Hlog, Hpr. }
  destruct (bool_decide (u ∈ pr_reviewers pr)) eqn:Hrev.
  2: { unfold approve_pull_request, state_after, result, console. run.
       rewrite Hlog, Hpr, Hrev. simpl. by rewrite Hlog, Hpr, Hrev. }
  set (s1 := set_pull_requests (<[k := approvals_add u pr]> (pull_requests s)) s).
  assert (∀ s0 pr0,
            logged_in s0 = Some u → pull_requests s0 !! k = Some pr0 →
            pr_reviewers pr0 = pr_reviewers pr →
            {[u]} ∪ pr_approvals pr0 = {[u]} ∪ pr_approvals pr →
            state_after (approve_pull_request k s0)
            = set_pull_requests
                (<[k := approvals_add u pr0]> (pull_requests s0)) s0
            ∧ result (approve_pull_request k s0) = true
            ∧ console (approve_pull_request k s0)
              = console (approve_pull_request k s)) as Hcall.
  { intros s0 pr0 Hlog0 Hpr0 Hrev0 Happ0.
    unfold approve_pull_request, state_after, result, console. run.
    rewrite Hlog0, Hpr0, Hlog, Hpr, Hrev0, Happ0, Hrev. simpl.
    by destruct (bool_decide (length (pr_reviewers pr)
                              ≤ size ({[u]} ∪ pr_approvals pr))). }
  destruct (Hcall s pr Hlog Hpr eq_refl eq_refl) as (Hst1 & Hres1 & _).
  rewrite Hst1. fold s1.
  assert (pull_requests s1 !! k = Some (approvals_add u pr)) as Hpr1
    by apply lookup_insert_eq.
  destruct (Hcall s1 (approvals_add u pr) Hlog Hpr1 eq_refl)
    as (Hst2 & Hres2 & Hout2).
  { simpl. by rewrite (assoc_L _), union_idemp_L. }
  rewrite Hst2, Hres2, Hres1, Hout2. split; [|done].
  unfold s1, set_pull_requests; simpl.
  by rewrite insert_insert_eq, approvals_add_twice.
Qed.

(** The simulator after a completion that goes through. *)
Lemma complete_pull_request_merged s k now pr :
  pull_requests s !! k = Some pr →
  result (complete_pull_request k now s) = true →
  state_after (complete_pull_request k now s)
  = match branches s !! pr_target_branch pr with
    | Some b =>
        set_branches
          (<[pr_target_branch pr := commits_append (merge_commit k pr) b]>
             (branches s))
          (set_pull_requests (<[k := completed now pr]> (pull_requests s)) s)
    | None =>
        set_pull_requests (<[k := completed now pr]> (pull_requests s)) s
    end.
Proof.
  intros Hpr. unfold complete_pull_request, state_after, result. run.
  destruct (logged_in s); [|done]. rewrite Hpr.
  destruct (negb _ && _); [done|].
  case_bool_decide; [done|]. intros _.
  by destruct (branches s !! pr_target_branch pr).
Qed.

(** Whether a completion goes through does not depend on the branches. *)
Lemma complete_pull_request_result_branches s bs k now :
  result (complete_pull_request k now (set_branches bs s))
  = result (complete_pull_request k now s).
Proof.
  unfold complete_pull_request, result. run.
  change (logged_in (set_branches bs s)) with (logged_in s).
  destruct (logged_in s); [|done].
  destruct (pull_requests s !! k) as [pr|]; [|done].
  change (check_permission (set_branches bs s)) with (check_permission s).
  destruct (negb _ && _); [done|].
  case_bool_decide; [done|].
  by destruct (bs !! pr_target_branch pr), (branches s !! pr_target_branch pr).
Qed.

(** X5.  [complete_pull_request] does not look at the status.  Once a
    completion has gone through, the same call goes through again on the
    completed pull request, and the target branch, when it exists, ends
    with the merge commit twice. *)
Theorem complete_pull_request_twice s k now1 now2 pr b :
  pull_requests s !! k = Some pr →
  branches s !! pr_target_branch pr = Some b →
  result (complete_pull_request k now1 s) = true →
  result (complete_pull_request k now2
            (state_after (complete_pull_request k now1 s))) = true
  ∧ b_commits <$>
      branches (state_after
                  (complete_pull_request k now2
                     (state_after (complete_pull_request k now1 s))))
        !! pr_target_branch pr
    = Some (b_commits b ++ [merge_commit k pr; merge_commit k pr])%list.
Proof.
  intros Hpr Hb Hres1.
  pose proof (complete_pull_request_merged s k now1 pr Hpr Hres1) as Hst1.
  rewrite Hb in Hst1.
  set (s1 := state_after (complete_pull_request k now1 s)) in *.
  assert (pull_requests s1 !! k = Some (completed now1 pr)) as Hpr1
    by (rewrite Hst1; simpl; apply lookup_insert_eq).
  assert (result (complete_pull_request k now2 s1) = true) as Hres2.
  { destruct (complete_pull_request_stored s k now1 pr Hpr)
      as [(_ & Hf & _)|(Hmay & _)]; [congruence|].
    destruct (complete_pull_request_stored s1 k now2 _ Hpr1)
      as [(Hno & _)|(_ & Ht & _)]; [|done].
    destruct Hno. rewrite Hst1. exact Hmay. }
  split; [done|].
  rewrite (complete_pull_request_merged s1 k now2 _ Hpr1 Hres2).
  simpl. rewrite Hst1. simpl. rewrite lookup_insert_eq. simpl.
  rewrite lookup_insert_eq. simpl. by rewrite <- app_assoc.
Qed.

Lemma complete_pull_request_twice_witness :
  result (complete_pull_request "a1b2c3d4" 31
            (state_after (complete_pull_request "a1b2c3d4" 30
                            demo_pr_to_develop))) = true
  ∧ b_commits <$>
      branches (state_after
                  (complete_pull_request "a1b2c3d4" 31
                     (state_after (complete_pull_request "a1b2c3d4" 30
                                     demo_pr_to_develop))))
        !! "develop"
    = Some ["Merged PR #a1b2c3d4: Add login"; "Merged PR #a1b2c3d4: Add login"].
Proof.
  assert (pull_requests demo_pr_to_develop !! "a1b2c3d4"
          = Some (demo_pr "developer1" "develop" [])) as Hpr
    by (vm_compute; reflexivity).
  assert (branches demo_pr_to_develop
            !! pr_target_branch (demo_pr "developer1" "develop" [])
          = Some (mkBranch "develop" false None None [] 7)) as Hb
    by (vm_compute; reflexivity).
  assert (result (complete_pull_request "a1b2c3d4" 30 demo_pr_to_develop)
          = true) as Hres by (vm_compute; reflexivity).
  exact (complete_pull_request_twice demo_pr_to_develop "a1b2c3d4" 30 31
           (demo_pr "developer1" "develop" [])
           (mkBranch "develop" false None None [] 7) Hpr Hb Hres).
Defined.

(** ** Branch locks *)

(** What [lock_branch] can do to the simulator: nothing, or lock one branch
    that has security. *)
Lemma lock_branch_state s branch_name reason :
  (result (lock_branch branch_name reason s) = false
   ∧ state_after (lock_branch branch_name reason s) = s)
  ∨ ∃ b sec,
      branches s !! branch_name = Some b ∧ b_security b = Some sec
      ∧ result (lock_branch branch_name reason s) = true
      ∧ check_permission s (current_user s) PROJECT_ADMIN = true
      ∧ state_after (lock_branch branch_name reason s)
        = set_branches
            (<[branch_name := with_security (locked reason sec) b]>
               (branches s)) s.
Proof.
  unfold lock_branch, state_after, result. run.
  destruct (check_permission s (current_user s) PROJECT_ADMIN); simpl;
    [|by left].
  destruct (branches s !! branch_name) as [[n d p [sec|] c t]|]; simpl;
    [|by left|by left].
  right. by eexists _, sec.
Qed.

(** X6.  A lock stops nothing.  Whether [complete_pull_request] merges a
    pull request is the same before and after any [lock_branch] call, and
    when a branch has just been locked a completion into it that goes
    through still appends its merge commit. *)
Theorem lock_does_not_block_merge s branch_name reason k now :
  result (complete_pull_request k now
            (state_after (lock_branch branch_name reason s)))
  = result (complete_pull_request k now s)
  ∧ ∀ pr, result (lock_branch branch_name reason s) = true →
          pull_requests s !! k = Some pr →
          pr_target_branch pr = branch_name →
          result (complete_pull_request k now s) = true →
          ∃ b sec,
            branches (state_after
                        (complete_pull_request k now
                           (state_after (lock_branch branch_name reason s))))
              !! branch_name = Some b
            ∧ b_security b = Some sec ∧ is_locked sec = true
            ∧ last (b_commits b) = Some (merge_commit k pr).
Proof.
  destruct (lock_branch_state s branch_name reason)
    as [[Hres Hst]|(b & sec & Hb & Hsec & Hres & _ & Hst)].
  - rewrite Hst, Hres. split; [done|]. by intros pr ?.
  - rewrite Hst. split; [apply complete_pull_request_result_branches|].
    intros pr _ Hpr Htgt Hdone.
    set (s1 := set_branches _ s).
    assert (result (complete_pull_request k now s1) = true) as Hdone1
      by (unfold s1; by rewrite complete_pull_request_result_branches).
    rewrite (complete_pull_request_merged s1 k now pr Hpr Hdone1).
    rewrite Htgt. unfold s1 at 1. simpl. rewrite lookup_insert_eq. simpl.
    rewrite lookup_insert_eq. eexists _, _. split; [done|]. simpl.
    split; [done|]. split; [done|]. by rewrite last_snoc.
Qed.

Lemma lock_does_not_block_merge_witness :
  result (complete_pull_request "a1b2c3d4" 30
            (state_after (lock_branch "main" "Preparing for release"
                            demo_pr_to_main))) = true
  ∧ ∃ b sec,
      branches (state_after
                  (complete_pull_request "a1b2c3d4" 30
                     (state_after (lock_branch "main" "Preparing for release"
                                     demo_pr_to_main))))
        !! "main" = Some b
      ∧ b_security b = Some sec ∧ is_locked sec = true
      ∧ last (b_commits b)
        = Some (merge_commit "a1b2c3d4"
                  (approvals_add "admin" (demo_pr "admin" "main" ["admin"]))).
Proof.
  destruct (lock_does_not_block_merge demo_pr_to_main "main"
              "Preparing for release" "a1b2c3d4" 30) as [Hsame Hcommit].
  assert (result (complete_pull_request "a1b2c3d4" 30 demo_pr_to_main) = true)
    as Hres by (vm_compute; reflexivity).
  split; [rewrite Hsame; exact Hres|].
  apply Hcommit.
  - vm_compute; reflexivity.
  - vm_compute; reflexivity.
  - reflexivity.
  - exact Hres.
Defined.

(** ** Pipelines *)

(** X7.  Gates never hold a run back.  [run_pipeline] on a stored pipeline
    returns [True] and leaves it [SUCCEEDED] with [last_run] set to the time
    of the call, whatever gates it has (enabled, with approval required,
    with approvers); gates, triggers and every other entity stay as they
    were. *)
Theorem run_pipeline_ignores_gates s pipeline_id now p :
  pipelines s !! pipeline_id = Some p →
  result (run_pipeline pipeline_id now s) = true
  ∧ ∃ p', pipelines (state_after (run_pipeline pipeline_id now s))
            !! pipeline_id = Some p'
          ∧ p_status p' = SUCCEEDED
          ∧ p_last_run p' = Some now
          ∧ p_gates p' = p_gates p
          ∧ p_triggers p' = p_triggers p
          ∧ state_after (run_pipeline pipeline_id now s)
            = set_pipelines (<[pipeline_id := p']> (pipelines s)) s.
Proof.
  intros Hp. destruct (run_pipeline_found pipeline_id now s p Hp) as [-> ->].
  split; [done|]. eexists. split; [apply lookup_insert_eq|]. by simpl.
Qed.

Lemma run_pipeline_ignores_gates_witness :
  result (run_pipeline "c0ffee00" 40
            (steps demo_sim
               [ CreatePipeline "CI/CD Pipeline" "trigger: none" "c0ffee00";
                 AddPipelineGate "c0ffee00"
                   (mkGate "Production Approval" "Manual approval required"
                           1440 true true ["admin"]) ])) = true.
Proof.
  refine (proj1 (run_pipeline_ignores_gates _ "c0ffee00" 40
                   (mkPipeline "c0ffee00" "CI/CD Pipeline" "trigger: none"
                      default_BuildTrigger
                      [mkGate "Production Approval" "Manual approval required"
                              1440 true true ["admin"]] PENDING None) _)).
  vm_compute. reflexivity.
Defined.

(** ** Pull requests away from [main] and branch protection *)

Lemma create_pull_request_off_main s u title src tgt desc wis k now :
  logged_in s = Some u → tgt ≠ "main" →
  result (create_pull_request title src tgt desc wis k now s)
  = Some (mkPullRequest k title src tgt u desc ACTIVE [] ∅ (default [] wis)
                        now None)
  ∧ state_after (create_pull_request title src tgt desc wis k now s)
    = set_pull_requests
        (<[k := mkPullRequest k title src tgt u desc ACTIVE [] ∅
                  (default [] wis) now None]> (pull_requests s)) s.
Proof.
  intros Hlog Htgt. apply String.eqb_neq in Htgt.
  unfold create_pull_request, state_after, result. run.
  rewrite Hlog, Htgt. simpl.
  destruct (branches s !! tgt) as [[n d [p|] sc c t]|]; simpl; try done.
  by destruct (require_code_review p).
Qed.

(** X8.  Branch policies protect ["main"] only.  A pull request to any other
    branch is created without reviewers, whatever policy the branch has
    ([require_code_review], [minimum_reviewers]), and its author can
    complete it at once. *)
Theorem pr_off_main_merges_at_once s u title src tgt desc wis k now now' :
  logged_in s = Some u → tgt ≠ "main" →
  ∃ pr, result (create_pull_request title src tgt desc wis k now s) = Some pr
        ∧ pr_reviewers pr = []
        ∧ result (complete_pull_request k now'
                    (state_after
                       (create_pull_request title src tgt desc wis k now s)))
          = true
        ∧ pr_status <$>
            pull_requests
              (state_after
                 (complete_pull_request k now'
                    (state_after
                       (create_pull_request title src tgt desc wis k now s))))
              !! k
          = Some COMPLETED.
Proof.
  intros Hlog Htgt.
  destruct (create_pull_request_off_main s u title src tgt desc wis k now
              Hlog Htgt) as [-> ->].
  eexists. split; [done|]. split; [done|].
  set (pr := mkPullRequest _ _ _ _ _ _ _ _ _ _ _ _).
  set (s1 := set_pull_requests _ s).
  assert (pull_requests s1 !! k = Some pr) as Hpr by apply lookup_insert_eq.
  destruct (complete_pull_request_stored s1 k now' pr Hpr)
    as [(Hno & _)|(_ & -> & ->)].
  - destruct Hno. unfold may_complete.
    change (logged_in s1) with (logged_in s). rewrite Hlog.
    split; [by eexists|]. split; [by right|]. simpl. lia.
  - split; [done|]. by rewrite lookup_insert_eq.
Qed.

Lemma pr_off_main_merges_at_once_witness :
  ∃ pr, result (create_pull_request "Release notes" "develop" "release/v1.0.0"
                  EmptyString None "0f1e2d3c" 30
                  (steps demo_sim
                     [ CreateBranch "release/v1.0.0" false 20;
                       ApplyBranchPolicy "release/v1.0.0"
                         (mkBranchPolicy true true 3 true true false true);
                       Login "developer2" ])) = Some pr
        ∧ pr_reviewers pr = [].
Proof.
  destruct (pr_off_main_merges_at_once
              (steps demo_sim
                 [ CreateBranch "release/v1.0.0" false 20;
                   ApplyBranchPolicy "release/v1.0.0"
                     (mkBranchPolicy true true 3 true true false true);
                   Login "developer2" ])
              "developer2" "Release notes" "develop" "release/v1.0.0"
              EmptyString None "0f1e2d3c" 30 31)
    as (pr & Hpr & Hrev & _).
  - vm_compute. reflexivity.
  - discriminate.
  - exists pr. split; [exact Hpr | exact Hrev].
Defined.

(** X9.  [create_branch] does not look for an existing branch.  Creating
    ["main"] again replaces it by a branch without policy and security:
    afterwards every logged-in user may open a pull request to ["main"],
    and it gets no reviewers. *)
Theorem recreating_main_removes_protection s u is_default now :
  logged_in s = Some u →
  b_policy <$> branches (state_after (create_branch "main" is_default now s))
                 !! "main" = Some None
  ∧ b_security <$> branches (state_after (create_branch "main" is_default now s))
                     !! "main" = Some None
  ∧ _can_create_pr_to_main (state_after (create_branch "main" is_default now s))
    = true
  ∧ ∀ title src desc wis k now',
      ∃ pr, result (create_pull_request title src "main" desc wis k now'
                      (state_after (create_branch "main" is_default now s)))
            = Some pr
            ∧ pr_reviewers pr = [].
Proof.
  intros Hlog. unfold create_branch, state_after, result. run.
  rewrite lookup_insert_eq. simpl. split; [done|]. split; [done|].
  split.
  - unfold _can_create_pr_to_main. simpl.
    change (logged_in (set_branches _ s)) with (logged_in s).
    by rewrite Hlog, lookup_insert_eq.
  - intros title src desc wis k now'.
    unfold create_pull_request, _can_create_pr_to_main. run.
    change (logged_in (set_branches _ s)) with (logged_in s).
    rewrite Hlog. simpl. rewrite !lookup_insert_eq. simpl.
    by eexists.
Qed.

Lemma recreating_main_removes_protection_witness :
  _can_create_pr_to_main
    (state_after (create_branch "main" true 30 demo_pr_unapproved)) = true.
Proof.
  refine (proj1 (proj2 (proj2
            (recreating_main_removes_protection demo_pr_unapproved "admin"
               true 30 _)))).
  vm_compute. reflexivity.
Defined.

(** ** Refused calls and known users *)

(** X10.  A refused call changes nothing.  Whenever a public method returns
    [False] (or [create_pull_request] returns [None]) the simulator is left
    exactly as it was: no method fails half-way through an update. *)
Theorem refused_call_changes_nothing s o :
  refused s o = true → step s o = s.
Proof.
  destruct o; simpl; try done.
  all: try match goal with
       | |- context [run_pipeline ?id ?n ?st] =>
           destruct (pipelines st !! id) as [p|] eqn:Hp;
             [ destruct (run_pipeline_found id n st p Hp) as [Hr _];
               by rewrite Hr
             | unfold run_pipeline, state_after; run; by rewrite Hp ]
       end.
  all: unfold_methods; unfold state_after, result; run.
  all: repeat (case_inner; simpl); try done.
  all: by intros ?%bool_decide_eq_true.
Qed.

Lemma refused_call_changes_nothing_witness :
  step demo_pr_unapproved (CompletePullRequest "a1b2c3d4" 30)
  = demo_pr_unapproved.
Proof.
  apply refused_call_changes_nothing. vm_compute. reflexivity.
Defined.

Lemma step_users_known s o : users_known s → users_known (step s o).
Proof.
  intros (Hcur & Hgrp & Hpr). destruct o; simpl.
  19: { destruct (pipelines s !! pipeline_id) as [p|] eqn:Hp.
        - by destruct (run_pipeline_found pipeline_id now s p Hp) as [_ ->].
        - unfold run_pipeline. run. by rewrite Hp. }
  all: unfold_methods; run.
  all: repeat (case_inner; simpl); try done.
  all: unfold users_known; simpl.
  all: try match goal with
       | H : logged_in _ = Some _ |- _ =>
           apply logged_in_Some in H as [Hlog _];
           pose proof (Hcur _ Hlog) as Hme
       end.
  all: try match goal with
       | H : users _ !! _ = Some _ |- _ =>
           pose proof (proj2 (elem_of_dom _ _) (ex_intro _ _ H)) as Hthere
       end.
  all: split;
         [ intros u0 Hu0
         | split; [intros k0 g0 u0 Hk0 Hu0 | intros k0 pr0 Hk0] ];
       simpl in *.
  all: rewrite ?dom_insert.
  all: try (apply lookup_insert_Some in Hk0 as [[<- <-]|[_ Hk0]]; simpl in *).
  all: try (destruct (Hpr _ _ Hk0) as [Hauth Happr]).
  all: try match goal with
       | H : pull_requests _ !! _ = Some ?p |- context [?p] =>
           destruct (Hpr _ _ H) as [Hauth' Happr']
       end.
  all: try (split; [|intros v Hv]).
  all: try (apply elem_of_union; right).
  all: try (by eauto); try (by eapply Hgrp).
  all: try (by injection Hu0 as <-).
  all: try (by apply elem_of_empty in Hv); try (by apply elem_of_empty in Hu0).
  all: rewrite ?dom_insert; try (apply elem_of_union; right); try (by eauto).
  - apply elem_of_union in Hu0 as [->%elem_of_singleton|Hu0]; [done|].
    by eapply Hgrp.
  - apply elem_of_union in Hv as [->%elem_of_singleton|Hv]; eauto.
  - apply elem_of_union in Hv as [->%elem_of_singleton|Hv]; eauto.
Qed.

(** X11.  Only stored users act.  In every reachable state the logged-in
    user, every member of every group, and the author and every approver of
    every pull request are keys of [users]. *)
Theorem only_stored_users_act s :
  reachable s → users_known s.
Proof.
  induction 1 as [|s o _ IH]; [|by apply step_users_known].
  split; [done|]. split.
  - intros k g u Hk. simpl in Hk. by rewrite lookup_empty in Hk.
  - intros k pr Hk. simpl in Hk. by rewrite lookup_empty in Hk.
Qed.

Lemma only_stored_users_act_witness : users_known demo_pr_to_main.
Proof.
  apply only_stored_users_act.
  apply reachable_steps, new_simulator_reachable.
Defined.

End DevOpsMore.

(** * Further properties of [ReleaseApprovalManager] *)

Module ApprovalsMore.
Import Approvals ApprovalsProps.
Local Open Scope nat_scope.

(** ** The loop of [process_approval] *)

Lemma matches_test m request_id approver r :
  String.eqb (id r) request_id
  && bool_decide (approver ∈ approvers_of m r) = true
  ↔ matches m request_id approver r.
Proof.
  unfold matches. rewrite andb_true_iff, String.eqb_eq, bool_decide_eq_true.
  done.
Qed.

(** The loop stops at the first request that passes the test and hands it
    to [respond]; without such a request it runs to its end. *)
Lemma process_loop_first m request_id approver decision comment now rs :
  match process_loop m request_id approver decision comment now rs with
  | None => ∀ r, r ∈ rs → ¬ matches m request_id approver r
  | Some rs' =>
      ∃ i r, rs !! i = Some r
             ∧ matches m request_id approver r
             ∧ (∀ j r', j < i → rs !! j = Some r' →
                        ¬ matches m request_id approver r')
             ∧ rs' = <[i := respond m approver decision comment now r]> rs
  end.
Proof.
  induction rs as [|r0 rs IH]; simpl.
  - intros r Hr. by apply elem_of_nil in Hr.
  - destruct (_ && _) eqn:Htest.
    + apply matches_test in Htest. exists 0, r0.
      split; [done|]. split; [done|]. split; [|done]. intros j r' Hj. lia.
    + assert (¬ matches m request_id approver r0) as Hno.
      { intros Hm. apply matches_test in Hm. congruence. }
      destruct (process_loop _ _ _ _ _ _ rs) as [rs'|]; simpl.
      * destruct IH as (i & r & Hi & Hm & Hfirst & ->).
        exists (S i), r. split; [done|]. split; [done|]. split; [|done].
        intros [|j] r' Hj Hr'; simpl in Hr'.
        -- by injection Hr' as <-.
        -- apply (Hfirst j); [lia|done].
      * intros r Hr. apply elem_of_cons in Hr as [->|Hr]; [done|].
        by apply IH.
Qed.

Lemma first_match_unique m request_id approver i r j r' :
  first_match m request_id approver i r →
  first_match m request_id approver j r' → i = j ∧ r = r'.
Proof.
  intros (Hi & Hm & Hfirst) (Hj & Hm' & Hfirst').
  destruct (Nat.lt_trichotomy i j) as [Hlt|[->|Hlt]].
  - destruct (Hfirst' i r Hlt Hi Hm).
  - split; [done|]. congruence.
  - destruct (Hfirst j r' Hlt Hj Hm').
Qed.

(** [process_approval] as a whole. *)
Lemma process_approval_cases m request_id approver decision comment now :
  (result (process_approval request_id approver decision comment now m) = false
   ∧ state_after (process_approval request_id approver decision comment now m)
     = m
   ∧ ∀ r, r ∈ approval_requests m → ¬ matches m request_id approver r)
  ∨ ∃ i r,
      first_match m request_id approver i r
      ∧ result (process_approval request_id approver decision comment now m)
        = true
      ∧ state_after (process_approval request_id approver decision comment now m)
        = mkManager (lists m) (environments m)
            (<[i := respond m approver decision comment now r]>
               (approval_requests m)).
Proof.
  pose proof (process_loop_first m request_id approver decision comment now
                (approval_requests m)) as Hloop.
  unfold process_approval, state_after, result. run.
  destruct (process_loop _ _ _ _ _ _ _) as [rs'|]; simpl.
  - right. destruct Hloop as (i & r & Hi & Hm & Hfirst & ->).
    by exists i, r.
  - left. by destruct m.
Qed.

(** ** What a call does to the lists and to the requests *)

Lemma step_lists_grow md5 m c a l :
  lists m !! a = Some l →
  ∃ l', lists (step md5 m c) !! a = Some (l ++ l')%list.
Proof.
  intros Ha.
  assert (∃ l', lists m !! a = Some (l ++ l')%list) as Hsame
    by (exists []; by rewrite app_nil_r).
  assert (∀ new, ∃ l', (lists m ++ new)%list !! a = Some (l ++ l')%list)
    as Hmore.
  { intros new. exists []. rewrite app_nil_r.
    rewrite lookup_app_l by by eapply lookup_lt_Some. done. }
  assert (∀ b x, ∃ l', alter (λ l0, l0 ++ [x])%list b (lists m) !! a
                       = Some (l ++ l')%list) as Halter.
  { intros b x. destruct (decide (b = a)) as [->|Hne].
    - exists [x]. by rewrite list_lookup_alter_eq, Ha.
    - exists []. by rewrite list_lookup_alter_ne, app_nil_r. }
  destruct c; simpl.
  - unfold create_environment, state_after. run. apply Hmore.
  - unfold add_approver, state_after. run.
    destruct (environments m !! environment0); [|done].
    destruct (String.eqb _ _); [apply Halter|].
    destruct (String.eqb _ _); [apply Halter|done].
  - unfold request_approval, send_request, state_after. run.
    destruct (String.eqb approval_type "pre").
    { by destruct (environments m !! environment0). }
    destruct (String.eqb approval_type "post").
    { by destruct (environments m !! environment0). }
    apply Hmore.
  - destruct (process_approval_cases m request_id approver decision0 comment0
                now) as [(_ & -> & _)|(i & r & _ & _ & ->)]; done.
  - unfold list_approval_requests, state_after. run.
    match goal with
    | |- context [for_each ?l ?b ?s'] =>
        destruct (DevOpsProps.for_each_prints l b) with (s := s') as [o ->]
    end; [|done].
    intros x s'. run. by eexists.
Qed.

Lemma step_deref_mono md5 m c a x :
  x ∈ deref m a → x ∈ deref (step md5 m c) a.
Proof.
  unfold deref. destruct (lists m !! a) as [l|] eqn:Ha; simpl.
  - destruct (step_lists_grow md5 m c a l Ha) as [l' ->]. simpl.
    intros Hx. apply elem_of_app. by left.
  - intros Hx. by apply elem_of_nil in Hx.
Qed.

(** A request keeps its place; a call leaves it alone unless it is the
    first match of a [process_approval], which hands it to [respond]. *)
Lemma step_request_at md5 m c i r :
  approval_requests m !! i = Some r →
  approval_requests (step md5 m c) !! i = Some r
  ∨ ∃ request_id approver decision comment now,
      c = ProcessApproval request_id approver decision comment now
      ∧ first_match m request_id approver i r
      ∧ approval_requests (step md5 m c) !! i
        = Some (respond m approver decision comment now r).
Proof.
  intros Hr.
  assert (∀ new, (approval_requests m ++ new)%list !! i = Some r) as Hmore.
  { intros new. rewrite lookup_app_l by by eapply lookup_lt_Some. done. }
  destruct c; simpl.
  - by left.
  - left. unfold add_approver, state_after. run.
    destruct (environments m !! environment0); [|done].
    destruct (String.eqb _ _); [done|]. by destruct (String.eqb _ _).
  - left. unfold request_approval, send_request, state_after. run.
    destruct (String.eqb approval_type "pre").
    { destruct (environments m !! environment0); simpl; [apply Hmore|done]. }
    destruct (String.eqb approval_type "post").
    { destruct (environments m !! environment0); simpl; [apply Hmore|done]. }
    apply Hmore.
  - destruct (process_approval_cases m request_id approver decision0 comment0
                now) as [(_ & -> & _)|(j & r' & Hfirst & _ & ->)];
      [by left|]. simpl.
    destruct (decide (j = i)) as [->|Hne].
    + right. exists request_id, approver, decision0, comment0, now.
      assert (r' = r) as -> by (destruct Hfirst as [? _]; congruence).
      split; [done|]. split; [done|].
      apply list_lookup_insert_eq. by eapply lookup_lt_Some.
    + left. by rewrite list_lookup_insert_ne.
  - left. unfold list_approval_requests, state_after. run.
    match goal with
    | |- context [for_each ?l ?b ?s'] =>
        destruct (DevOpsProps.for_each_prints l b) with (s := s') as [o ->]
    end; [|done].
    intros x s'. run. by eexists.
Qed.

(** Where a request of the manager after a call comes from: it was there
    (and a [process_approval] may have handed it to [respond]), or the call
    has just made it. *)
Lemma step_request_origin md5 m c i r' :
  approval_requests (step md5 m c) !! i = Some r' →
  (∃ r, approval_requests m !! i = Some r
        ∧ (r' = r
           ∨ ∃ request_id approver decision comment now,
               matches m request_id approver r
               ∧ r' = respond m approver decision comment now r))
  ∨ (status r' = "Pending" ∧ responses r' = ∅).
Proof.
  intros Hr'.
  destruct (approval_requests m !! i) as [r|] eqn:Hr.
  - left. exists r. split; [done|].
    destruct (step_request_at md5 m c i r Hr)
      as [Hsame|(rid & a & d & cm & now & _ & (_ & Hm & _) & Hresp)].
    + left. congruence.
    + right. exists rid, a, d, cm, now. split; [done|]. congruence.
  - right. apply lookup_ge_None in Hr.
    assert (∀ new, (approval_requests m ++ [new])%list !! i = Some r' →
                   r' = new) as Hnew.
    { intros new Hi. rewrite lookup_app_r in Hi by done.
      apply list_lookup_singleton_Some in Hi as [_ Hi]. done. }
    assert (approval_requests m !! i = Some r' → False) as Hold.
    { intros Hi. apply lookup_lt_Some in Hi. lia. }
    revert Hr'.
    assert (approval_requests m !! i = Some r' →
            status r' = "Pending" ∧ responses r' = ∅) as Hsame.
    { intros Hi. by destruct Hold. }
    assert (∀ new, status new = "Pending" → responses new = ∅ →
                   (approval_requests m ++ [new])%list !! i = Some r' →
                   status r' = "Pending" ∧ responses r' = ∅) as Hadd.
    { intros new Hst Hrs Hi. by rewrite (Hnew _ Hi). }
    destruct c; simpl.
    + done.
    + unfold add_approver, state_after. run.
      destruct (environments m !! environment0); [|done].
      destruct (String.eqb _ _); [done|]. by destruct (String.eqb _ _).
    + unfold request_approval, send_request, state_after. run.
      destruct (String.eqb approval_type "pre").
      { destruct (environments m !! environment0); simpl;
          [by apply Hadd | done]. }
      destruct (String.eqb approval_type "post").
      { destruct (environments m !! environment0); simpl;
          [by apply Hadd | done]. }
      by apply Hadd.
    + destruct (process_approval_cases m request_id approver decision0
                  comment0 now) as [(_ & -> & _)|(j & r0 & _ & _ & ->)];
        simpl; [exact Hsame|].
      intros Hi. apply lookup_lt_Some in Hi. rewrite length_insert in Hi. lia.
    + unfold list_approval_requests, state_after. run.
      match goal with
      | |- context [for_each ?l ?b ?s'] =>
          destruct (DevOpsProps.for_each_prints l b) with (s := s') as [o ->]
      end; [|exact Hsame].
      intros x s'. run. by eexists.
Qed.

Lemma step_responses_from_approvers md5 m c :
  responses_from_approvers m → responses_from_approvers (step md5 m c).
Proof.
  intros Hinv r' Hr' a Ha.
  apply list_elem_of_lookup in Hr' as [i Hi].
  destruct (step_request_origin md5 m c i r' Hi)
    as [(r & Hr & [->|(rid & ap & d & cm & now & Hm & ->)])|[_ Hnone]].
  - apply step_deref_mono. apply (Hinv r); [|done].
    apply list_elem_of_lookup. by exists i.
  - apply step_deref_mono. simpl in Ha. rewrite dom_insert in Ha.
    apply elem_of_union in Ha as [Ha|Ha].
    + apply elem_of_singleton in Ha as ->. by destruct Hm.
    + apply (Hinv r); [|done]. apply list_elem_of_lookup. by exists i.
  - rewrite Hnone, dom_empty in Ha. by apply elem_of_empty in Ha.
Qed.

Lemma step_statuses_known md5 m c :
  (∀ r, r ∈ approval_requests m → status_known (status r)) →
  ∀ r, r ∈ approval_requests (step md5 m c) → status_known (status r).
Proof.
  intros Hinv r' Hr'.
  apply list_elem_of_lookup in Hr' as [i Hi].
  destruct (step_request_origin md5 m c i r' Hi)
    as [(r & Hr & [->|(rid & ap & d & cm & now & Hm & ->)])|[Hp _]].
  - apply Hinv. apply list_elem_of_lookup. by exists i.
  - destruct (respond_status m ap d cm now r) as [->|Hres]; [|by right].
    apply Hinv. apply list_elem_of_lookup. by exists i.
  - by left.
Qed.

Lemma reachable_invariants md5 m :
  reachable md5 m →
  responses_from_approvers m
  ∧ ∀ r, r ∈ approval_requests m → status_known (status r).
Proof.
  induction 1 as [|m c _ [IH1 IH2]].
  - split; intros r Hr; by apply elem_of_nil in Hr.
  - split; [by apply step_responses_from_approvers|].
    by apply step_statuses_known.
Qed.

Lemma reachable_after_calls md5 m cs :
  reachable md5 m → reachable md5 (steps md5 m cs).
Proof.
  revert m. induction cs as [|c cs IH]; intros m Hm; simpl; [done|].
  apply IH. by constructor.
Qed.

(** X12.  In every manager the calls can produce, each request has one of
    the statuses ["Pending"], ["Approved"], ["Rejected"], and each of its
    responses comes from an approver the request lists: nobody else can get
    a response recorded. *)
Theorem responses_come_from_listed_approvers md5 m r :
  reachable md5 m →
  r ∈ approval_requests m →
  status_known (status r)
  ∧ ∀ a, a ∈ dom (responses r) → a ∈ approvers_of m r.
Proof.
  intros Hreach Hr. destruct (reachable_invariants md5 m Hreach) as [H1 H2].
  split; [by apply H2|]. by apply H1.
Qed.

Lemma responses_come_from_listed_approvers_witness :
  ∃ r, approval_requests demo_one_of_two = [r]
       ∧ status_known (status r)
       ∧ ∀ a, a ∈ dom (responses r) → a ∈ approvers_of demo_one_of_two r.
Proof.
  assert (reachable demo_digest demo_one_of_two) as Hreach
    by (apply reachable_after_calls; constructor).
  destruct (approval_requests demo_one_of_two) as [|r [|r2 rs]] eqn:Hrs;
    [by vm_compute in Hrs | | by vm_compute in Hrs].
  exists r. split; [reflexivity|].
  apply (responses_come_from_listed_approvers demo_digest demo_one_of_two r
           Hreach).
  rewrite Hrs. apply list_elem_of_here.
Defined.

(** X13.  [process_approval] serves the first match only.  The call returns
    [True] exactly when some request has the id and lists the approver; a
    call that returns [False] changes nothing; and when the [i]-th request
    is the first that has the id and lists the approver, that request, and
    no other, takes the response: the lists of approvers, the environments
    and every other request stay as they were. *)
Theorem process_approval_serves_first_match m request_id approver decision
    comment now :
  (result (process_approval request_id approver decision comment now m) = true
   ↔ ∃ r, r ∈ approval_requests m ∧ matches m request_id approver r)
  ∧ (result (process_approval request_id approver decision comment now m)
     = false →
     state_after (process_approval request_id approver decision comment now m)
     = m)
  ∧ (∀ i r, first_match m request_id approver i r →
       state_after (process_approval request_id approver decision comment now m)
       = mkManager (lists m) (environments m)
           (<[i := respond m approver decision comment now r]>
              (approval_requests m))).
Proof.
  destruct (process_approval_cases m request_id approver decision comment now)
    as [(Hres & Hst & Hno)|(i & r & Hfirst & Hres & Hst)];
    rewrite Hres, Hst.
  - split; [|split; [done|]].
    + split; [done|]. intros (r & Hr & Hm). by destruct (Hno r).
    + intros i r (Hi & Hm & _). destruct (Hno r); [|done].
      apply list_elem_of_lookup. by exists i.
  - split; [|split; [done|]].
    + split; [|done]. intros _. exists r. destruct Hfirst as (Hi & Hm & _).
      split; [|done]. apply list_elem_of_lookup. by exists i.
    + intros j r' Hfirst'.
      by destruct (first_match_unique _ _ _ _ _ _ _ Hfirst Hfirst') as [-> ->].
Qed.

Lemma process_approval_serves_first_match_witness :
  state_after (process_approval demo_request_id "nobody@company.com"
                 "Approved" "LGTM" 3 demo_approved)
  = demo_approved.
Proof.
  apply (process_approval_serves_first_match demo_approved demo_request_id
           "nobody@company.com" "Approved" "LGTM" 3).
  vm_compute. reflexivity.
Defined.

(** ** Twin requests *)

(** X14.  Responses never reach the later of two twin requests.  When two
    requests have the same id and the same list of approvers (the same
    approval requested twice for a deployment), every accepted response
    goes to the earlier one: over any sequence of calls the later request
    stays exactly as it is. *)
Theorem later_twin_request_is_never_served md5 m cs i j ri rj :
  approval_requests m !! i = Some ri →
  approval_requests m !! j = Some rj →
  i < j → id ri = id rj → approvers ri = approvers rj →
  approval_requests (steps md5 m cs) !! j = Some rj.
Proof.
  intros Hi Hj Hlt Hid Happ. revert m ri Hi Hj Hid Happ.
  induction cs as [|c cs IH]; intros m ri Hi Hj Hid Happ; simpl; [done|].
  assert (approval_requests (step md5 m c) !! j = Some rj) as Hj'.
  { destruct (step_request_at md5 m c j rj Hj)
      as [Hsame|(rid & a & d & cm & now & _ & (_ & [Hm1 Hm2] & Hfirst) & _)];
      [done|].
    destruct (Hfirst i ri Hlt Hi). split; [congruence|].
    unfold approvers_of in *. by rewrite Happ. }
  destruct (step_request_at md5 m c i ri Hi)
    as [Hsame|(rid & a & d & cm & now & _ & _ & Hresp)].
  - by apply (IH _ ri).
  - by apply (IH _ (respond m a d cm now ri)).
Qed.

Lemma later_twin_request_is_never_served_witness :
  status_at
    (steps demo_digest (steps demo_digest new_manager demo_requested_twice)
       [ ProcessApproval demo_request_id "lead@company.com" "Approved" "LGTM" 3;
         ProcessApproval demo_request_id "lead@company.com" "Approved"
                         "Once more" 4 ]) 1
  = Some "Pending".
Proof.
  unfold status_at.
  rewrite (later_twin_request_is_never_served demo_digest
             (steps demo_digest new_manager demo_requested_twice)
             [ ProcessApproval demo_request_id "lead@company.com" "Approved"
                               "LGTM" 3;
               ProcessApproval demo_request_id "lead@company.com" "Approved"
                               "Once more" 4 ]
             0 1
             (mkRequest demo_request_id "deploy-12345" "Staging" "pre" 0
                        "Pending" 1 ∅)
             (mkRequest demo_request_id "deploy-12345" "Staging" "pre" 0
                        "Pending" 2 ∅)).
  - reflexivity.
  - vm_compute. reflexivity.
  - vm_compute. reflexivity.
  - lia.
  - reflexivity.
  - reflexivity.
Defined.

(** ** Requests of another type *)

Lemma step_addresses_valid md5 m c :
  addresses_valid m → addresses_valid (step md5 m c).
Proof.
  intros Hinv.
  assert (∀ m', environments m' = environments m →
                length (lists m) ≤ length (lists m') →
                addresses_valid m') as Hsame.
  { intros m' Henv Hlen n e He. rewrite Henv in He.
    destruct (Hinv n e He). lia. }
  destruct c; simpl.
  - unfold create_environment, state_after. run.
    intros n e He. simpl in *. rewrite length_app. simpl.
    apply lookup_insert_Some in He as [[_ <-]|[_ He]]; simpl; [lia|].
    destruct (Hinv n e He). lia.
  - apply Hsame; unfold add_approver, state_after; run.
    + destruct (environments m !! environment0); [|done].
      destruct (String.eqb _ _); [done|]. by destruct (String.eqb _ _).
    + destruct (environments m !! environment0); [|done].
      destruct (String.eqb _ _); simpl; [by rewrite length_alter|].
      destruct (String.eqb _ _); simpl; [by rewrite length_alter|done].
  - apply Hsame; unfold request_approval, send_request, state_after; run.
    + destruct (String.eqb approval_type "pre").
      { by destruct (environments m !! environment0). }
      destruct (String.eqb approval_type "post").
      { by destruct (environments m !! environment0). }
      done.
    + destruct (String.eqb approval_type "pre").
      { by destruct (environments m !! environment0). }
      destruct (String.eqb approval_type "post").
      { by destruct (environments m !! environment0). }
      simpl. rewrite length_app. lia.
  - destruct (process_approval_cases m request_id approver decision0 comment0
                now) as [(_ & -> & _)|(i & r & _ & _ & ->)]; [done|].
    by apply Hsame.
  - apply Hsame; unfold list_approval_requests, state_after; run.
    all: match goal with
         | |- context [for_each ?l ?b ?s'] =>
             destruct (DevOpsProps.for_each_prints l b) with (s := s')
               as [o ->]
         end; [|done].
    all: intros x s'; run; by eexists.
Qed.

Lemma reachable_addresses_valid md5 m :
  reachable md5 m → addresses_valid m.
Proof.
  induction 1 as [|m c _ IH]; [|by apply step_addresses_valid].
  intros n e He. simpl in He. by rewrite lookup_empty in He.
Qed.

Lemma step_unlisted md5 m c a : unlisted m a → unlisted (step md5 m c) a.
Proof.
  intros [Ha Henv].
  assert (a < length (lists m)) as Hlt by by eapply lookup_lt_Some.
  assert (∀ m', environments m' = environments m →
                lists m' !! a = Some [] → unlisted m' a) as Hsame.
  { intros m' He Hl. split; [done|]. by rewrite He. }
  assert (∀ new, (lists m ++ new)%list !! a = Some []) as Hmore
    by (intros new; by rewrite lookup_app_l).
  destruct c; simpl.
  - unfold create_environment, state_after. run. split; simpl; [done|].
    intros n e He. apply lookup_insert_Some in He as [[_ <-]|[_ He]]; simpl.
    + lia.
    + by apply (Henv n).
  - apply Hsame; unfold add_approver, state_after; run.
    + destruct (environments m !! environment0); [|done].
      destruct (String.eqb _ _); [done|]. by destruct (String.eqb _ _).
    + destruct (environments m !! environment0) as [e|] eqn:He; [|done].
      destruct (Henv _ _ He) as [Hpre Hpost].
      destruct (String.eqb _ _); simpl;
        [by rewrite list_lookup_alter_ne|].
      destruct (String.eqb _ _); simpl;
        [by rewrite list_lookup_alter_ne|done].
  - apply Hsame; unfold request_approval, send_request, state_after; run.
    + destruct (String.eqb approval_type "pre").
      { by destruct (environments m !! environment0). }
      destruct (String.eqb approval_type "post").
      { by destruct (environments m !! environment0). }
      done.
    + destruct (String.eqb approval_type "pre").
      { by destruct (environments m !! environment0). }
      destruct (String.eqb approval_type "post").
      { by destruct (environments m !! environment0). }
      simpl. apply Hmore.
  - destruct (process_approval_cases m request_id approver decision0 comment0
                now) as [(_ & -> & _)|(i & r & _ & _ & ->)]; [done|].
    by apply Hsame.
  - apply Hsame; unfold list_approval_requests, state_after; run.
    all: match goal with
         | |- context [for_each ?l ?b ?s'] =>
             destruct (DevOpsProps.for_each_prints l b) with (s := s')
               as [o ->]
         end; [|done].
    all: intros x s'; run; by eexists.
Qed.

Lemma steps_unlisted md5 m cs a : unlisted m a → unlisted (steps md5 m cs) a.
Proof.
  revert m. induction cs as [|c cs IH]; intros m Hun; simpl; [done|].
  apply IH. by apply step_unlisted.
Qed.

(** A request whose list of approvers is empty and belongs to no
    environment stays as it is. *)
Lemma steps_unlisted_request md5 m cs i r :
  unlisted m (approvers r) →
  approval_requests m !! i = Some r →
  approval_requests (steps md5 m cs) !! i = Some r.
Proof.
  revert m. induction cs as [|c cs IH]; intros m Hun Hr; simpl; [done|].
  apply IH; [by apply step_unlisted|].
  destruct (step_request_at md5 m c i r Hr)
    as [Hsame|(rid & a & d & cm & now & _ & (_ & [_ Hm] & _) & _)]; [done|].
  unfold approvers_of, deref in Hm. destruct Hun as [Hl _].
  rewrite Hl in Hm. by apply elem_of_nil in Hm.
Qed.

(** X15.  A request of a type other than ["pre"] and ["post"] is made
    without looking at the environment (which need not exist) and lists
    nobody; no sequence of calls ever resolves it or records a response
    for it. *)
Theorem request_of_other_type_stays_pending md5 m environment deployment_id
    approval_type now cs :
  reachable md5 m →
  approval_type ≠ "pre" → approval_type ≠ "post" →
  result (request_approval md5 environment deployment_id approval_type now m)
  = Returned (request_id_of md5 deployment_id approval_type)
  ∧ ∃ r,
      approval_requests
        (steps md5
           (state_after (request_approval md5 environment deployment_id
                           approval_type now m)) cs)
        !! length (approval_requests m) = Some r
      ∧ status r = "Pending" ∧ responses r = ∅
      ∧ approvers_of
          (steps md5
             (state_after (request_approval md5 environment deployment_id
                             approval_type now m)) cs) r = [].
Proof.
  intros Hreach Hpre%String.eqb_neq Hpost%String.eqb_neq.
  pose proof (reachable_addresses_valid md5 m Hreach) as Hvalid.
  unfold request_approval, send_request, state_after, result. run.
  rewrite Hpre, Hpost. simpl. split; [done|].
  set (r := mkRequest _ _ _ _ _ _ _ _).
  set (m1 := mkManager _ _ _).
  assert (unlisted m1 (approvers r)) as Hun.
  { split; simpl.
    - rewrite lookup_app_r by done. by rewrite Nat.sub_diag.
    - intros n e He. destruct (Hvalid n e He). lia. }
  assert (approval_requests m1 !! length (approval_requests m) = Some r)
    as Hr.
  { simpl. rewrite lookup_app_r by done. by rewrite Nat.sub_diag. }
  exists r. split; [by apply steps_unlisted_request|].
  split; [done|]. split; [done|].
  destruct (steps_unlisted md5 m1 cs (approvers r) Hun) as [Hl _].
  unfold approvers_of, deref. by rewrite Hl.
Qed.

Lemma request_of_other_type_stays_pending_witness :
  ∃ r, approval_requests
         (steps demo_digest
            (state_after (request_approval demo_digest "Nowhere" "deploy-12345"
                            "manual" 5 demo_approved))
            [ AddApprover "Staging" "qa@company.com" "pre";
              ProcessApproval demo_request_id "qa@company.com" "Approved"
                              "Fine" 6 ])
         !! 1 = Some r
       ∧ status r = "Pending".
Proof.
  destruct (request_of_other_type_stays_pending demo_digest demo_approved
              "Nowhere" "deploy-12345" "manual" 5
              [ AddApprover "Staging" "qa@company.com" "pre";
                ProcessApproval demo_request_id "qa@company.com" "Approved"
                                "Fine" 6 ])
    as (_ & r & Hr & Hst & _).
  - apply reachable_after_calls. constructor.
  - discriminate.
  - discriminate.
  - exists r. split; [exact Hr | exact Hst].
Defined.

(** ** Shared lists of approvers *)

(** X16.  A request holds the list of its environment, not a copy.  An
    approver added to the environment after [request_approval] is listed by
    the open request too: the request made for ["pre"] lists the approvers
    the environment had, followed by the late one. *)
Theorem late_approver_joins_open_request md5 m environment e deployment_id
    now approver_email :
  reachable md5 m →
  environments m !! environment = Some e →
  ∃ r,
    approval_requests
      (state_after (request_approval md5 environment deployment_id "pre" now m))
      !! length (approval_requests m) = Some r
    ∧ approvers_of
        (state_after (request_approval md5 environment deployment_id "pre"
                        now m)) r
      = deref m (pre_deployment_approvers e)
    ∧ approvers_of
        (state_after
           (add_approver environment approver_email "pre"
              (state_after (request_approval md5 environment deployment_id
                              "pre" now m)))) r
      = (deref m (pre_deployment_approvers e) ++ [approver_email])%list.
Proof.
  intros Hreach He.
  destruct (reachable_addresses_valid md5 m Hreach _ _ He) as [Hpre _].
  apply lookup_lt_is_Some in Hpre as [l Hl].
  unfold request_approval, send_request, add_approver, state_after. run.
  rewrite He. simpl. rewrite He. simpl.
  eexists. split.
  { rewrite lookup_app_r by done. by rewrite Nat.sub_diag. }
  unfold approvers_of, deref; simpl.
  split; [done|]. by rewrite list_lookup_alter_eq, Hl.
Qed.

Lemma late_approver_joins_open_request_witness :
  ∃ r,
    approval_requests
      (state_after (request_approval demo_digest "Staging" "deploy-67890"
                      "pre" 5 demo_approved)) !! 1 = Some r
    ∧ approvers_of
        (state_after
           (add_approver "Staging" "qa@company.com" "pre"
              (state_after (request_approval demo_digest "Staging"
                              "deploy-67890" "pre" 5 demo_approved)))) r
      = ["lead@company.com"; "qa@company.com"].
Proof.
  destruct (late_approver_joins_open_request demo_digest demo_approved
              "Staging" (mkEnvironment "Staging environment for testing" 0 1 0)
              "deploy-67890" 5 "qa@company.com")
    as (r & Hr & _ & Hlate).
  - apply reachable_after_calls. constructor.
  - vm_compute. reflexivity.
  - exists r. split; [exact Hr | exact Hlate].
Defined.

(** ** Unanimity *)

(** X17.  With approvers that are all different the status follows the
    comment in the code.  In a reachable manager, when [process_approval]
    hands a response to a request whose listed approvers are pairwise
    different, the request stays as it was while some listed approver has
    not responded, and once all have it is ["Approved"] if every recorded
    decision is ["Approved"] and ["Rejected"] otherwise. *)
Theorem distinct_approvers_resolve_unanimously md5 m request_id approver
    decision comment now i r :
  reachable md5 m →
  first_match m request_id approver i r →
  NoDup (approvers_of m r) →
  ∃ r',
    approval_requests
      (state_after (process_approval request_id approver decision comment
                      now m)) !! i = Some r'
    ∧ approvers_of
        (state_after (process_approval request_id approver decision comment
                        now m)) r' = approvers_of m r
    ∧ responses r'
      = <[approver := mkResponse decision comment now]> (responses r)
    ∧ ((∀ a, a ∈ approvers_of m r → a ∈ dom (responses r')) →
       status r' = verdict (responses r'))
    ∧ (¬ (∀ a, a ∈ approvers_of m r → a ∈ dom (responses r')) →
       status r' = status r).
Proof.
  intros Hreach Hfirst Hnodup.
  destruct (reachable_invariants md5 m Hreach) as [Hresp _].
  destruct (process_approval_cases m request_id approver decision comment now)
    as [(_ & _ & Hno)|(j & r0 & Hfirst' & _ & ->)].
  { destruct Hfirst as (Hi & Hm & _). destruct (Hno r); [|done].
    apply list_elem_of_lookup. by exists i. }
  destruct (first_match_unique _ _ _ _ _ _ _ Hfirst Hfirst') as [<- <-].
  destruct Hfirst as (Hi & [_ Hin] & _).
  exists (respond m approver decision comment now r). simpl.
  split; [apply list_lookup_insert_eq; by eapply lookup_lt_Some|].
  split; [done|]. split; [done|].
  apply (respond_distinct_approvers m approver decision comment now r);
    [done|done|].
  apply Hresp. apply list_elem_of_lookup. by exists i.
Qed.

Lemma distinct_approvers_resolve_unanimously_witness :
  ∃ r',
    approval_requests
      (state_after (process_approval demo_request_id "lead@company.com"
                      "Approved" "Approved after code review" 3
                      demo_one_of_two)) !! 0 = Some r'
    ∧ status r' = "Approved".
Proof.
  set (r := mkRequest demo_request_id "deploy-12345" "Production" "pre" 0
              "Pending" 1
              (<["manager@company.com" := mkResponse "Approved" "LGTM" 2]> ∅)).
  assert (first_match demo_one_of_two demo_request_id "lead@company.com" 0 r)
    as Hfirst.
  { split; [vm_compute; reflexivity|]. split.
    - split; [reflexivity|]. vm_compute. apply list_elem_of_further, list_elem_of_here.
    - intros j r' Hj. lia. }
  assert (approvers_of demo_one_of_two r
          = ["manager@company.com"; "lead@company.com"]) as Happ
    by (vm_compute; reflexivity).
  destruct (distinct_approvers_resolve_unanimously demo_digest demo_one_of_two
              demo_request_id "lead@company.com" "Approved"
              "Approved after code review" 3 0 r)
    as (r' & Hr' & _ & Hrs & Hall & _).
  - apply reachable_after_calls. constructor.
  - exact Hfirst.
  - rewrite Happ. apply NoDup_cons. split.
    + intros Hin. apply list_elem_of_singleton in Hin. discriminate.
    + apply NoDup_singleton.
  - exists r'. split; [exact Hr'|]. rewrite Hall.
    + rewrite Hrs. vm_compute. reflexivity.
    + rewrite Happ, Hrs. intros a Ha. apply elem_of_dom.
      apply elem_of_cons in Ha as [->|Ha]; [vm_compute; by eexists|].
      apply list_elem_of_singleton in Ha as ->. vm_compute. by eexists.
Defined.

End ApprovalsMore.

(** * Further properties of [PipelineVariableManager] *)

Module VariablesMore.
Import Variables.

(** X18.  [add_variable] touches one variable.  Reading any other variable
    (another name, or the same name in another scope) gives after the call
    what it gave before. *)
Theorem add_variable_leaves_others vs scope name v is_secret scope' name' :
  (scope', name') ≠ (scope, name) →
  get_variable (state_after (add_variable scope name v is_secret vs))
               scope' name'
  = get_variable vs scope' name'.
Proof.
  intros Hne.
  unfold add_variable, get_variable, state_after.
  unfold mbind at 1 2, Prog_bind, modify, print; simpl.
  destruct (decide (scope' = scope)) as [->|Hs].
  - assert (name' ≠ name) as Hn by congruence.
    rewrite lookup_insert_eq.
    destruct (vs !! scope) as [vars|] eqn:Hvs; simpl.
    + rewrite Hvs. simpl. by rewrite lookup_insert_ne.
    + rewrite lookup_insert_eq. simpl. by rewrite lookup_insert_ne.
  - rewrite lookup_insert_ne by done.
    destruct (vs !! scope); [done|]. by rewrite lookup_insert_ne.
Qed.

Lemma add_variable_leaves_others_witness :
  get_variable (state_after (add_variable "release" "Environment" "Production"
                               false demo_store)) "release" "ApiKey"
  = Some "sk-1234567890abcdef".
Proof.
  rewrite (add_variable_leaves_others demo_store "release" "Environment"
             "Production" false "release" "ApiKey").
  - vm_compute. reflexivity.
  - discriminate.
Defined.

Lemma yaml_variables_spec (vs : Store) name v :
  (name, v) ∈ yaml_variables vs
  ↔ ∃ scope, get_variable vs scope name = Some v.
Proof.
  unfold yaml_variables, get_variable. rewrite list_elem_of_bind. split.
  - intros ([scope vars] & Hin & Hsc). apply elem_of_map_to_list in Hsc.
    apply list_elem_of_bind in Hin as ([n d] & Hin & Hn).
    apply elem_of_map_to_list in Hn.
    apply list_elem_of_singleton in Hin as [= -> ->].
    exists scope. by rewrite Hsc, Hn.
  - intros [scope Hget].
    destruct (vs !! scope) as [vars|] eqn:Hsc; [|done].
    destruct (vars !! name) as [d|] eqn:Hn; [|done].
    injection Hget as <-. exists (scope, vars).
    split; [|by apply elem_of_map_to_list].
    apply list_elem_of_bind. exists (name, d).
    split; [apply list_elem_of_here|by apply elem_of_map_to_list].
Qed.

(** X19.  The exported configuration carries secrets in the clear.  The list
    that [generate_yaml_config] hands to [yaml.dump] has an entry for a name
    and a value exactly when [get_variable] returns that value for the name
    in some scope; so after [add_variable] with [is_secret=True] the
    unmasked value is in it. *)
Theorem yaml_config_exports_secrets vs :
  (∀ name v, (name, v) ∈ yaml_variables vs
             ↔ ∃ scope, get_variable vs scope name = Some v)
  ∧ (∀ yaml_dump scope name v,
       generate_yaml_config yaml_dump
         (state_after (add_variable scope name v true vs))
       = yaml_dump
           (yaml_variables (state_after (add_variable scope name v true vs)))
       ∧ (name, v)
         ∈ yaml_variables (state_after (add_variable scope name v true vs))).
Proof.
  split; [apply yaml_variables_spec|].
  intros yaml_dump scope name v. split; [done|].
  apply yaml_variables_spec. exists scope.
  unfold add_variable, get_variable, state_after.
  unfold mbind at 1 2, Prog_bind, modify, print; simpl.
  by rewrite !lookup_insert_eq.
Qed.

End VariablesMore.

(** * Properties of [WorkItemManager] *)

Module WorkItemsProps.
Import WorkItems.

Lemma filter_filter {A} (f g : A → bool) l :
  List.filter g (List.filter f l) = List.filter (λ x, f x && g x) l.
Proof.
  induction l as [|x l IH]; simpl; [done|].
  destruct (f x); simpl; [|done]. destruct (g x); by rewrite IH.
Qed.

(** The loop over the criteria filters by their conjunction. *)
Lemma filter_by_all (criteria : Criteria) (keep : Item → bool) items :
  foldl (λ filtered_items fc, List.filter (keeps fc.1 fc.2) filtered_items)
        (List.filter keep items) criteria
  = List.filter (λ item, keep item && passes criteria item) items.
Proof.
  revert keep. induction criteria as [|[f c] cs IH]; intros keep; simpl.
  - apply List.filter_ext. intros item. by rewrite andb_true_r.
  - rewrite filter_filter, IH. apply List.filter_ext. intros item.
    by rewrite andb_assoc.
Qed.

Lemma execute_query_known m query_name criteria :
  queries m !! query_name = Some criteria →
  execute_query query_name m
  = (List.filter (passes criteria) (work_items m), m, []).
Proof.
  intros Hq. unfold execute_query. run. rewrite Hq. simpl. f_equal. f_equal.
  rewrite <- (filter_by_all criteria (λ _, true)).
  f_equal. induction (work_items m) as [|x l IH]; simpl; by f_equal.
Qed.

(** X20.  [execute_query] returns the conjunction of its criteria.  For a
    stored query the result holds, in the order of [work_items], exactly
    the work items that pass every criterion of the query; the manager is
    not changed and nothing is printed; listing the criteria in another
    order gives the same result. *)
Theorem execute_query_is_conjunction m query_name criteria :
  queries m !! query_name = Some criteria →
  execute_query query_name m
  = (List.filter (passes criteria) (work_items m), m, [])
  ∧ (∀ item, item ∈ result (execute_query query_name m)
             ↔ item ∈ work_items m
               ∧ ∀ field c, (field, c) ∈ criteria → keeps field c item = true)
  ∧ sublist (result (execute_query query_name m)) (work_items m)
  ∧ (∀ criteria', criteria' ≡ₚ criteria →
       result (execute_query query_name
                 (mkManager (work_items m)
                            (<[query_name := criteria']> (queries m))))
       = result (execute_query query_name m)).
Proof.
  intros Hq. rewrite (execute_query_known m query_name criteria Hq).
  assert (∀ cs item, passes cs item = true
                     ↔ ∀ field c, (field, c) ∈ cs → keeps field c item = true)
    as Hpass.
  { intros cs item. unfold passes. rewrite forallb_forall. split.
    - intros Hall field c Hin. apply (Hall (field, c)).
      by apply list_elem_of_In.
    - intros Hall [field c] Hin. apply Hall. by apply list_elem_of_In. }
  split; [done|]. unfold result; simpl. split; [|split].
  - intros item. rewrite list_elem_of_In, List.filter_In, <- list_elem_of_In.
    by rewrite Hpass.
  - induction (work_items m) as [|x l IH]; simpl; [constructor|].
    destruct (passes criteria x); by constructor.
  - intros criteria' Hperm.
    rewrite (execute_query_known _ query_name criteria')
      by apply lookup_insert_eq.
    simpl. apply List.filter_ext. intros item.
    apply eq_true_iff_eq. rewrite !Hpass.
    split; intros Hall field c Hin; apply Hall;
      [by rewrite Hperm | by rewrite <- Hperm].
Qed.

Lemma execute_query_is_conjunction_witness :
  execute_query "Active Bugs" demo_manager = ([demo_bug], demo_manager, []).
Proof.
  destruct (execute_query_is_conjunction demo_manager "Active Bugs"
              [("type", Is (VStr "Bug")); ("state", Is (VStr "Active"))])
    as [Heq _].
  - vm_compute. reflexivity.
  - rewrite Heq. f_equal.
Defined.

End WorkItemsProps.

(** * Properties of [VariableGroupManager] *)

Module VariableGroupsProps.
Import VariableGroups.

(** X21.  [add_scope_to_variable_group] is no set insertion.  On a group
    that exists it appends, so the same scope added twice is listed twice;
    on a group that does not exist it changes nothing and prints
    nothing. *)
Theorem add_scope_appends_or_is_silent gs group_name scope :
  match gs !! group_name with
  | Some g =>
      scopes <$>
        state_after
          (add_scope_to_variable_group group_name scope
             (state_after (add_scope_to_variable_group group_name scope gs)))
        !! group_name
      = Some (scopes g ++ [scope; scope])%list
  | None => add_scope_to_variable_group group_name scope gs = ((), gs, [])
  end.
Proof.
  unfold add_scope_to_variable_group, state_after. run.
  destruct (gs !! group_name) as [g|] eqn:Hg; simpl; [|done].
  rewrite lookup_insert_eq. simpl. rewrite lookup_insert_eq. simpl.
  by rewrite <- app_assoc.
Qed.

End VariableGroupsProps.

(** * Properties of [SelfHostedAgentManager] *)

Module AgentsProps.
Import Agents.

Lemma step_consistent md5 m c : consistent md5 m → consistent md5 (step md5 m c).
Proof.
  intros [Hag Hpool]. destruct c; simpl.
  - unfold create_agent_pool, state_after. run. split; simpl; [done|].
    intros k p x Hk Hx.
    apply lookup_insert_Some in Hk as [[_ <-]|[_ Hk]]; simpl in *.
    + by apply elem_of_nil in Hx.
    + by eapply Hpool.
  - unfold register_agent, state_after. run.
    set (a := mkAgent _ _ _ _ _ _ _ _).
    assert (∀ k a', <[name0 := a]> (agents m) !! k = Some a' →
                    name a' = k ∧ id a' = agent_id_of md5 k) as Hag'.
    { intros k a' Hk.
      apply lookup_insert_Some in Hk as [[<- <-]|[_ Hk]]; [done|].
      by apply Hag. }
    assert (∀ x, (∃ a', agents m !! name a' = Some a' ∧ id a' = x) →
                 ∃ a', <[name0 := a]> (agents m) !! name a' = Some a'
                       ∧ id a' = x) as Hkeep.
    { intros x (a' & Ha' & Hid).
      destruct (decide (name a' = name0)) as [Heq|Hne].
      - exists a. split; [apply lookup_insert_eq|]. simpl.
        destruct (Hag _ _ Ha') as [_ Hid']. by rewrite <- Hid, Hid', Heq.
      - exists a'. split; [|done]. by rewrite lookup_insert_ne. }
    destruct (agent_pools m !! pool_name) as [p|] eqn:Hp; simpl.
    + split; [done|]. intros k p' x Hk Hx. simpl in Hk |- *.
      apply lookup_insert_Some in Hk as [[<- <-]|[_ Hk]]; simpl in *.
      * apply elem_of_app in Hx as [Hx|Hx]; [by eapply Hkeep, Hpool|].
        apply list_elem_of_singleton in Hx as ->.
        exists a. split; [apply lookup_insert_eq|done].
      * by eapply Hkeep, Hpool.
    + split; [done|]. intros k p' x Hk Hx. simpl in Hk |- *.
      by eapply Hkeep, Hpool.
Qed.

Lemma reachable_foldl md5 m cs :
  reachable md5 m → reachable md5 (foldl (step md5) m cs).
Proof.
  revert m. induction cs as [|c cs IH]; intros m Hm; simpl; [done|].
  apply IH. by constructor.
Qed.

(** X22.  The pools list registered agents only.  In every manager the calls
    can produce, an agent is stored under its name with the id computed
    from that name, and every id in the list of a pool is the id of a
    stored agent. *)
Theorem pools_list_registered_agents md5 m :
  reachable md5 m → consistent md5 m.
Proof.
  induction 1 as [|m c _ IH]; [|by apply step_consistent].
  split.
  - intros k a Hk. simpl in Hk. by rewrite lookup_empty in Hk.
  - intros k p x Hk. simpl in Hk. by rewrite lookup_empty in Hk.
Qed.

Lemma pools_list_registered_agents_witness : consistent demo_digest demo_manager.
Proof.
  apply pools_list_registered_agents.
  apply reachable_foldl. constructor.
Defined.

(** X23.  What the pools list can be out of date.  Registering an agent
    again under the same name in another pool moves the stored agent to
    that pool, yet the pool it was in goes on listing its id; and
    registering it again in the same pool lists the id twice. *)
Theorem reregistered_agent_stays_listed md5 m name os_type pool_name p
    capabilities now1 now2 os_type' pool_name' capabilities' now3 now4 :
  agent_pools m !! pool_name = Some p →
  let m1 := state_after (register_agent md5 name os_type pool_name
                           capabilities now1 now2 m) in
  let m2 := state_after (register_agent md5 name os_type' pool_name'
                           capabilities' now3 now4 m1) in
  pool <$> agents m2 !! name = Some pool_name'
  ∧ (pool_name' ≠ pool_name →
     pool_agents <$> agent_pools m2 !! pool_name
     = Some (pool_agents p ++ [agent_id_of md5 name])%list)
  ∧ (pool_name' = pool_name →
     pool_agents <$> agent_pools m2 !! pool_name
     = Some (pool_agents p ++ [agent_id_of md5 name; agent_id_of md5 name])%list).
Proof.
  intros Hp m1 m2. subst m1 m2.
  unfold register_agent, state_after. run. rewrite Hp. simpl.
  split; [|split].
  - destruct (decide (pool_name' = pool_name)) as [->|Hne].
    + rewrite lookup_insert_eq. simpl. by rewrite lookup_insert_eq.
    + rewrite lookup_insert_ne by done.
      destruct (agent_pools m !! pool_name'); simpl;
        by rewrite lookup_insert_eq.
  - intros Hne. rewrite lookup_insert_ne by done.
    destruct (agent_pools m !! pool_name'); simpl.
    + rewrite lookup_insert_ne by done. by rewrite lookup_insert_eq.
    + by rewrite lookup_insert_eq.
  - intros ->. rewrite lookup_insert_eq. simpl. rewrite lookup_insert_eq.
    simpl. by rewrite <- app_assoc.
Qed.

Lemma reregistered_agent_stays_listed_witness :
  pool <$> agents
             (state_after
                (register_agent demo_digest "ubuntu-agent-01" "Linux"
                   "Windows-Agents" ["docker"] 5 6
                   (state_after
                      (register_agent demo_digest "ubuntu-agent-01" "Linux"
                         "Linux-Agents" ["docker"; "nodejs"] 3 4
                         demo_manager))))
             !! "ubuntu-agent-01"
  = Some "Windows-Agents".
Proof.
  refine (proj1 (reregistered_agent_stays_listed demo_digest demo_manager
                   "ubuntu-agent-01" "Linux" "Linux-Agents"
                   (mkPool "Pool for Linux-based agents" ["agent-5d41402a"] 0)
                   ["docker"; "nodejs"] 3 4 "Linux" "Windows-Agents"
                   ["docker"] 5 6 _)).
  vm_compute. reflexivity.
Defined.

End AgentsProps.
